(** * Player.js: lifecycle orchestration of the scene player

    A shallow embedding of [ShadowEditor.Web/src/player/Player.js].

    The player is a single mutable object driven by the host's event loop.
    It is modelled as a record [World] (the player's own fields, the mount
    container registered with the UI toolkit, the promise continuations and
    frame callbacks the player has handed to the host, and the ordered list
    of the effects it has performed), and every method of the
    prototype is a computation in a state-and-exception monad over [World].

    The collaborators (the seven player components, [UI], [dispatch], the
    THREE objects, [Stats]) are not part of the file: a call on one of them
    is recorded in [log]; the promises they return are settled by the host
    ([loader_resolves], [create_resolves], ...).  Calls to collaborators are
    taken not to re-enter the player. *)

From Stdlib Require Import ZArith List String Bool Lia.
Import ListNotations.
Local Open Scope string_scope.
Local Open Scope list_scope.

(** ** What the host provides *)

(** JS numbers are doubles; the player only converts integers and divides,
    so the arithmetic is left to the host.  [JSON_parse] is [JSON.parse]:
    [None] stands for the [SyntaxError] it throws. *)
Class Host := {
  num : Type;
  num_of_Z : Z -> num;
  num_div : num -> num -> num;
  json : Type;
  JSON_parse : string -> option json;
  scripts : Type;
  animations : Type;
  window_origin : string
}.

(** The values [start] can be called with, as far as [typeof] tells them
    apart. *)
Inductive JSValue :=
| JSUndefined
| JSNull
| JSBoolean (b : bool)
| JSNumber (n : Z)
| JSString (s : string)
| JSSymbol
| JSFunction
| JSObject.

Definition typeof (v : JSValue) : string :=
  match v with
  | JSUndefined => "undefined"
  | JSNull => "object"
  | JSBoolean _ => "boolean"
  | JSNumber _ => "number"
  | JSString _ => "string"
  | JSSymbol => "symbol"
  | JSFunction => "function"
  | JSObject => "object"
  end.

(** The seven components built by the constructor, under the names of the
    fields that hold them. *)
Inductive Component :=
| loader | event | control | audio | playerRenderer | animation | physics.

Definition Component_eqb (a b : Component) : bool :=
  match a, b with
  | loader, loader | event, event | control, control | audio, audio
  | playerRenderer, playerRenderer | animation, animation
  | physics, physics => true
  | _, _ => false
  end.

(** Objects with identity only: DOM nodes, audio listeners, scene children.
    [Given] ones come with the loaded payload or the host, [Made k] is the
    [k]-th object the player has constructed itself. *)
Inductive Ref :=
| Given (id : nat)
| Made (serial : nat).

Definition Ref_eqb (a b : Ref) : bool :=
  match a, b with
  | Given x, Given y => Nat.eqb x y
  | Made x, Made y => Nat.eqb x y
  | _, _ => false
  end.

Inductive Exn :=
| TypeError        (* property access on null or undefined *)
| NotFoundError.   (* removeChild of a node that is not a child *)

Section Player.

Context {host : Host}.

(** ** THREE objects, as far as the player touches them *)

Record Camera := {
  fov : num;
  aspect : num;
  near : num;
  far : num;
  (* the (fov, aspect, near, far) the projection matrix was last computed from *)
  projectionMatrix : num * num * num * num;
  camera_children : list Ref
}.

Definition updateProjectionMatrix (c : Camera) : Camera :=
  {| fov := fov c; aspect := aspect c; near := near c; far := far c;
     projectionMatrix := (fov c, aspect c, near c, far c);
     camera_children := camera_children c |}.

Definition set_aspect (a : num) (c : Camera) : Camera :=
  {| fov := fov c; aspect := a; near := near c; far := far c;
     projectionMatrix := projectionMatrix c;
     camera_children := camera_children c |}.

Definition camera_add (l : Ref) (c : Camera) : Camera :=
  {| fov := fov c; aspect := aspect c; near := near c; far := far c;
     projectionMatrix := projectionMatrix c;
     camera_children := camera_children c ++ [l] |}.

(** [new THREE.PerspectiveCamera(fov, aspect, near, far)]; the constructor
    computes the projection matrix. *)
Definition PerspectiveCamera (f a n r : num) : Camera :=
  {| fov := f; aspect := a; near := n; far := r;
     projectionMatrix := (f, a, n, r);
     camera_children := [] |}.

Record WebGLRenderer := {
  antialias : bool;
  domElement : Ref;
  size : option (Z * Z)     (* the last [setSize(width, height)], if any *)
}.

Definition setSize (w h : Z) (r : WebGLRenderer) : WebGLRenderer :=
  {| antialias := antialias r; domElement := domElement r;
     size := Some (w, h) |}.

Record Scene := { children : list Ref }.

Definition new_Scene : Scene := {| children := [] |}.

(** [new THREE.Clock(false)] *)
Record Clock := { autoStart : bool; running : bool }.

(** What [loader.create(jsons)] resolves with; an absent or [null] member is
    [None]. *)
Record Payload := {
  obj_camera : option Camera;
  obj_renderer : option WebGLRenderer;
  obj_audioListener : option Ref;
  obj_scene : option Scene;
  obj_scripts : scripts;
  obj_animations : animations
}.

(** ** The mount container

    Modelled from the spec: the element [UI.create({xtype: 'div', id:
    'player', ...})] registers and [UI.get('player', this.id)] returns; the
    UI toolkit is not in the file.  The mount contract asks for an element
    with [clientWidth]/[clientHeight] and DOM-like attach and detach. *)
Record Container := {
  display : string;
  clientWidth : Z;
  clientHeight : Z;
  childNodes : list Ref
}.

Definition set_display (d : string) (c : Container) : Container :=
  {| display := d; clientWidth := clientWidth c;
     clientHeight := clientHeight c; childNodes := childNodes c |}.

Definition without (n : Ref) (l : list Ref) : list Ref :=
  filter (fun m => negb (Ref_eqb n m)) l.

Definition is_child (n : Ref) (c : Container) : bool :=
  existsb (Ref_eqb n) (childNodes c).

(** DOM [appendChild]: a node that is already a child moves to the end. *)
Definition appendChild (n : Ref) (c : Container) : Container :=
  {| display := display c; clientWidth := clientWidth c;
     clientHeight := clientHeight c;
     childNodes := without n (childNodes c) ++ [n] |}.

(** DOM [removeChild] of a node that is a child. *)
Definition detach (n : Ref) (c : Container) : Container :=
  {| display := display c; clientWidth := clientWidth c;
     clientHeight := clientHeight c;
     childNodes := without n (childNodes c) |}.

(** ** What a method does, in program order

    Calls on collaborators, DOM operations, and the assignments to the
    player's own fields (with [true] for a non-null value). *)

Inductive Extra :=
| no_extra
| extra_scripts (s : scripts)
| extra_animations (a : animations).

Inductive Effect :=
| UI_msg (text : string)
| console_warn (text : string)
| dispatch_call (name : string)
| loader_create (jsons : json)
| c_create (c : Component) (s : option Scene) (cam : option Camera)
           (r : option WebGLRenderer) (x : Extra)
| c_init (c : Component)
| c_start (c : Component)
| c_update (c : Component) (clk : Clock) (deltaTime : num)
| c_stop (c : Component)
| c_dispose (c : Component)
| Promise_all (ps : list Component)
| requestAnimationFrame
| clock_start
| clock_stop
| clock_getDelta
| stats_begin
| stats_end
| new_Stats (dom : Ref)
| window_addEventListener (type : string)
| MutationObserver_observe
| new_PerspectiveCamera (c : Camera)
| camera_updateProjectionMatrix
| camera_set_aspect (a : num)
| camera_add_listener (l : Ref)
| new_WebGLRenderer (r : WebGLRenderer)
| renderer_setSize (w h : Z)
| new_AudioListener (l : Ref)
| new_THREE_Scene
| scene_children_clear
| dom_appendChild (n : Ref)
| dom_removeChild (n : Ref)
| style_display (d : string)
| this_isPlaying (b : bool)
| this_scene (set : bool)
| this_camera (set : bool)
| this_renderer (set : bool)
| this_stats.

(** ** The player and its world *)

Record Options := {
  server : string;
  enableThrowBall : bool;
  showStats : bool
}.

Record PlayerFields := {
  options : Options;
  scene : option Scene;
  camera : option Camera;
  renderer : option WebGLRenderer;
  isPlaying : bool;
  clock : Clock;
  stats : bool              (* [this.stats] is set *)
}.

(** [Promise.all] over the promises of the components' [create]: it waits for
    those still in [Waiting], is [Joined] once the last has resolved (its
    continuation has run), and [Broken] as soon as one rejects (its
    continuation never runs; no rejection handler is attached). *)
Inductive Join :=
| Waiting (pending : list Component)
| Joined
| Broken.

Record World := {
  this : PlayerFields;
  mount : option Container;   (* what [UI.get('player', this.id)] finds *)
  log : list Effect;          (* what has been done so far, oldest first *)
  loading : list json;        (* pending [loader.create(jsons).then(...)] *)
  joins : list Join;          (* one per [Promise.all(...).then(...)] *)
  frames : nat;               (* queued [requestAnimationFrame] callbacks,
                                 each of them [this.animate] *)
  made : nat                  (* objects constructed by the player so far *)
}.

Definition with_this (f : PlayerFields -> PlayerFields) (w : World) : World :=
  {| this := f (this w); mount := mount w; log := log w;
     loading := loading w; joins := joins w; frames := frames w;
     made := made w |}.

Definition with_mount (m : option Container) (w : World) : World :=
  {| this := this w; mount := m; log := log w;
     loading := loading w; joins := joins w; frames := frames w;
     made := made w |}.

Definition with_log (l : list Effect) (w : World) : World :=
  {| this := this w; mount := mount w; log := l;
     loading := loading w; joins := joins w; frames := frames w;
     made := made w |}.

Definition with_loading (l : list json) (w : World) : World :=
  {| this := this w; mount := mount w; log := log w;
     loading := l; joins := joins w; frames := frames w;
     made := made w |}.

Definition with_joins (l : list Join) (w : World) : World :=
  {| this := this w; mount := mount w; log := log w;
     loading := loading w; joins := l; frames := frames w;
     made := made w |}.

Definition with_frames (n : nat) (w : World) : World :=
  {| this := this w; mount := mount w; log := log w;
     loading := loading w; joins := joins w; frames := n;
     made := made w |}.

Definition with_made (n : nat) (w : World) : World :=
  {| this := this w; mount := mount w; log := log w;
     loading := loading w; joins := joins w; frames := frames w;
     made := n |}.

Definition put_scene (s : option Scene) (p : PlayerFields) : PlayerFields :=
  {| options := options p; scene := s; camera := camera p;
     renderer := renderer p; isPlaying := isPlaying p; clock := clock p;
     stats := stats p |}.

Definition put_camera (c : option Camera) (p : PlayerFields) : PlayerFields :=
  {| options := options p; scene := scene p; camera := c;
     renderer := renderer p; isPlaying := isPlaying p; clock := clock p;
     stats := stats p |}.

Definition put_renderer (r : option WebGLRenderer) (p : PlayerFields)
  : PlayerFields :=
  {| options := options p; scene := scene p; camera := camera p;
     renderer := r; isPlaying := isPlaying p; clock := clock p;
     stats := stats p |}.

Definition put_isPlaying (b : bool) (p : PlayerFields) : PlayerFields :=
  {| options := options p; scene := scene p; camera := camera p;
     renderer := renderer p; isPlaying := b; clock := clock p;
     stats := stats p |}.

Definition put_clock (c : Clock) (p : PlayerFields) : PlayerFields :=
  {| options := options p; scene := scene p; camera := camera p;
     renderer := renderer p; isPlaying := isPlaying p; clock := c;
     stats := stats p |}.

Definition put_stats (b : bool) (p : PlayerFields) : PlayerFields :=
  {| options := options p; scene := scene p; camera := camera p;
     renderer := renderer p; isPlaying := isPlaying p; clock := clock p;
     stats := b |}.

(** ** The monad: state, and exceptions that keep the state reached *)

Inductive Res (A : Type) :=
| Done (a : A) (w : World)
| Thrown (e : Exn) (w : World).
Arguments Done {A} a w.
Arguments Thrown {A} e w.

Definition M (A : Type) := World -> Res A.

Definition ret {A} (a : A) : M A := fun w => Done a w.

Definition bind {A B} (m : M A) (k : A -> M B) : M B :=
  fun w => match m w with
           | Done a w' => k a w'
           | Thrown e w' => Thrown e w'
           end.

Definition throw {A} (e : Exn) : M A := fun w => Thrown e w.

Definition gets {A} (f : World -> A) : M A := fun w => Done (f w) w.

Definition modify (f : World -> World) : M unit := fun w => Done tt (f w).

Definition world_of {A} (r : Res A) : World :=
  match r with Done _ w => w | Thrown _ w => w end.

Definition returns {A} (r : Res A) : bool :=
  match r with Done _ _ => true | Thrown _ _ => false end.

Notation "x <- m ;; k" := (bind m (fun x => k))
  (at level 61, m at next level, right associativity).
Notation "m ;; k" := (bind m (fun _ => k))
  (at level 61, right associativity).

Definition when (b : bool) (m : M unit) : M unit :=
  if b then m else ret tt.

Definition does (e : Effect) : M unit :=
  modify (fun w => with_log (log w ++ [e]) w).

Definition present {A} (o : option A) : bool :=
  match o with Some _ => true | None => false end.

(** Reading a property of a value that may be [null] or [undefined]. *)
Definition deref {A} (o : option A) : M A :=
  match o with
  | Some a => ret a
  | None => throw TypeError
  end.

(** [container.dom], for [container = UI.get('player', this.id)]: a
    [TypeError] when the player has not been rendered. *)
Definition container_dom : M Container :=
  m <- gets mount ;; deref m.

Definition set_mount (c : Container) : M unit :=
  modify (with_mount (Some c)).

(** A [new] object's identity. *)
Definition fresh : M Ref :=
  n <- gets made ;;
  modify (with_made (S n)) ;;
  ret (Made n).

Definition assign_isPlaying (b : bool) : M unit :=
  does (this_isPlaying b) ;; modify (with_this (put_isPlaying b)).

Definition assign_scene (s : option Scene) : M unit :=
  does (this_scene (present s)) ;; modify (with_this (put_scene s)).

Definition assign_camera (c : option Camera) : M unit :=
  does (this_camera (present c)) ;; modify (with_this (put_camera c)).

Definition assign_renderer (r : option WebGLRenderer) : M unit :=
  does (this_renderer (present r)) ;; modify (with_this (put_renderer r)).

(** *** THREE.Clock *)

Definition Clock_start : M unit :=
  does clock_start ;;
  c <- gets (fun w => clock (this w)) ;;
  modify (with_this (put_clock {| autoStart := autoStart c; running := true |})).

Definition Clock_stop : M unit :=
  does clock_stop ;;
  modify (with_this (put_clock {| autoStart := false; running := false |})).

(** [elapsed] is the time the host's timer reports since the clock's
    previous reading. *)
Definition Clock_getDelta (elapsed : num) : M num :=
  does clock_getDelta ;;
  c <- gets (fun w => clock (this w)) ;;
  if autoStart c && negb (running c) then
    modify (with_this (put_clock {| autoStart := true; running := true |})) ;;
    ret (num_of_Z 0)
  else if running c then ret elapsed
  else ret (num_of_Z 0).

(** ** The constructor and [render] *)

Record OptionsArg := {
  arg_server : option string;
  arg_enableThrowBall : option bool;
  arg_showStats : option bool
}.

Definition or_else {A} (falsy : A -> bool) (o : option A) (d : A) : A :=
  match o with
  | Some a => if falsy a then d else a
  | None => d
  end.

Definition new_Player (o : OptionsArg) : World :=
  {| this :=
       {| options :=
            {| server := or_else (String.eqb EmptyString) (arg_server o) window_origin;
               enableThrowBall := or_else negb (arg_enableThrowBall o) false;
               showStats := or_else negb (arg_showStats o) false |};
          scene := None;
          camera := None;
          renderer := None;
          isPlaying := false;
          clock := {| autoStart := false; running := false |};
          stats := false |};
     mount := None;
     log := [];
     loading := [];
     joins := [];
     frames := 0;
     made := 0 |}.

(** [render]: the container is created hidden; the size the layout gives it
    is the host's ([layout] below). *)
Definition render : M unit :=
  set_mount {| display := "none"; clientWidth := 0; clientHeight := 0;
               childNodes := [] |} ;;
  o <- gets (fun w => options (this w)) ;;
  when (showStats o)
    (d <- fresh ;;
     does (new_Stats d) ;;
     does this_stats ;;
     modify (with_this (put_stats true)) ;;
     c <- container_dom ;;
     does (dom_appendChild d) ;;
     set_mount (appendChild d c)) ;;
  does (window_addEventListener "resize") ;;
  does MutationObserver_observe.

(** ** [start] *)

Definition need_string : string := "需要字符串类型的场景数据参数！".
Definition cannot_parse : string := "无法解析json类型的场景数据！".
Definition no_camera : string := "Player: 场景中不存在相机信息".

Definition six : list Component :=
  [event; control; audio; playerRenderer; animation; physics].

(** [this.<component>.create(this.scene, this.camera, this.renderer, extra)] *)
Definition create (c : Component) (x : Extra) : M unit :=
  s <- gets (fun w => scene (this w)) ;;
  cam <- gets (fun w => camera (this w)) ;;
  r <- gets (fun w => renderer (this w)) ;;
  does (c_create c s cam r x).

Definition schedule_animate : M unit :=
  does requestAnimationFrame ;;
  n <- gets frames ;;
  modify (with_frames (S n)).

Definition initPlayer (obj : Payload) : M unit :=
  (* var container = UI.get('player', this.id); *)
  assign_camera (obj_camera obj) ;;
  cam <- gets (fun w => camera (this w)) ;;
  when (negb (present cam))
    (does (console_warn no_camera) ;;
     c <- container_dom ;;
     let made_camera :=
       PerspectiveCamera
         (num_of_Z 50)
         (num_div (num_of_Z (clientWidth c)) (num_of_Z (clientHeight c)))
         (num_div (num_of_Z 1) (num_of_Z 10))   (* 0.1 *)
         (num_of_Z 1000) in
     does (new_PerspectiveCamera made_camera) ;;
     assign_camera (Some made_camera)) ;;
  cam <- gets (fun w => camera (this w)) ;;
  cam <- deref cam ;;
  does camera_updateProjectionMatrix ;;
  modify (with_this (put_camera (Some (updateProjectionMatrix cam)))) ;;
  r <- match obj_renderer obj with
       | Some r => ret r
       | None =>
           n <- fresh ;;
           let r := {| antialias := true; domElement := n; size := None |} in
           does (new_WebGLRenderer r) ;;
           ret r
       end ;;
  assign_renderer (Some r) ;;
  c <- container_dom ;;
  does (renderer_setSize (clientWidth c) (clientHeight c)) ;;
  modify (with_this
            (put_renderer (Some (setSize (clientWidth c) (clientHeight c) r)))) ;;
  does (dom_appendChild (domElement r)) ;;
  set_mount (appendChild (domElement r) c) ;;
  l <- match obj_audioListener obj with
       | Some l => ret l
       | None => l <- fresh ;; does (new_AudioListener l) ;; ret l
       end ;;
  cam <- gets (fun w => camera (this w)) ;;
  cam <- deref cam ;;
  does (camera_add_listener l) ;;
  modify (with_this (put_camera (Some (camera_add l cam)))) ;;
  s <- match obj_scene obj with
       | Some s => ret s
       | None => does new_THREE_Scene ;; ret new_Scene
       end ;;
  assign_scene (Some s).

(** The continuation of [Promise.all([promise1, ..., promise6])]. *)
Definition start_joined : M unit :=
  does (c_init event) ;;
  Clock_start ;;
  does (c_start event).

(** The continuation of [this.loader.create(jsons)]. *)
Definition start_loaded (obj : Payload) : M unit :=
  initPlayer obj ;;
  does (dispatch_call "init") ;;
  create event (extra_scripts (obj_scripts obj)) ;;
  create control no_extra ;;
  create audio no_extra ;;
  create playerRenderer no_extra ;;
  create animation (extra_animations (obj_animations obj)) ;;
  create physics no_extra ;;
  does (Promise_all six) ;;
  js <- gets joins ;;
  modify (with_joins (js ++ [Waiting six])) ;;
  schedule_animate.

Definition start (sceneData : JSValue) : M unit :=
  match sceneData with
  | JSString text =>
      match JSON_parse text with
      | None => does (UI_msg cannot_parse)
      | Some jsons =>
          playing <- gets (fun w => isPlaying (this w)) ;;
          if playing then ret tt
          else
            assign_isPlaying true ;;
            (* var container = UI.get('player', this.id); *)
            c <- container_dom ;;
            does (style_display EmptyString) ;;
            set_mount (set_display EmptyString c) ;;
            does (loader_create jsons) ;;
            ls <- gets loading ;;
            modify (with_loading (ls ++ [jsons]))
      end
  | _ => does (UI_msg need_string)   (* typeof (sceneData) !== 'string' *)
  end.

(** ** [stop] *)

Definition stop : M unit :=
  playing <- gets (fun w => isPlaying (this w)) ;;
  if negb playing then ret tt
  else
    assign_isPlaying false ;;
    does (c_stop event) ;;
    does (c_dispose loader) ;;
    does (c_dispose event) ;;
    does (c_dispose control) ;;
    does (c_dispose audio) ;;
    does (c_dispose playerRenderer) ;;
    does (c_dispose animation) ;;
    does (c_dispose physics) ;;
    (* var container = UI.get('player', this.id); *)
    c <- container_dom ;;
    r <- gets (fun w => renderer (this w)) ;;
    r <- deref r ;;
    does (dom_removeChild (domElement r)) ;;
    (if is_child (domElement r) c then set_mount (detach (domElement r) c)
     else throw NotFoundError) ;;
    c <- container_dom ;;
    does (style_display "none") ;;
    set_mount (set_display "none" c) ;;
    s <- gets (fun w => scene (this w)) ;;
    _ <- deref s ;;
    does scene_children_clear ;;
    modify (with_this (put_scene (Some {| children := [] |}))) ;;
    assign_scene None ;;
    assign_camera None ;;
    assign_renderer None ;;
    Clock_stop.

(** ** [animate], [resize], [onResize] *)

Definition update (c : Component) (deltaTime : num) : M unit :=
  clk <- gets (fun w => clock (this w)) ;;
  does (c_update c clk deltaTime).

Definition animate (elapsed : num) : M unit :=
  playing <- gets (fun w => isPlaying (this w)) ;;
  if negb playing then ret tt
  else
    st <- gets (fun w => stats (this w)) ;;
    when st (does stats_begin) ;;
    deltaTime <- Clock_getDelta elapsed ;;
    update event deltaTime ;;
    update control deltaTime ;;
    update playerRenderer deltaTime ;;
    update animation deltaTime ;;
    update physics deltaTime ;;
    st <- gets (fun w => stats (this w)) ;;
    when st (does stats_end) ;;
    schedule_animate.

Definition resize : M unit :=
  cam <- gets (fun w => camera (this w)) ;;
  r <- gets (fun w => renderer (this w)) ;;
  match cam, r with
  | Some camera, Some renderer =>
      (* var container = UI.get('player', this.id); *)
      c <- container_dom ;;
      let width := clientWidth c in
      let height := clientHeight c in
      let a := num_div (num_of_Z width) (num_of_Z height) in
      does (camera_set_aspect a) ;;
      does camera_updateProjectionMatrix ;;
      modify (with_this
                (put_camera (Some (updateProjectionMatrix (set_aspect a camera))))) ;;
      does (renderer_setSize width height) ;;
      modify (with_this (put_renderer (Some (setSize width height renderer))))
  | _, _ => ret tt
  end.

Definition onResize : M unit := resize.

(** ** The host's side of the event loop *)

Fixpoint drop_nth {A} (i : nat) (l : list A) : list A :=
  match l, i with
  | [], _ => []
  | _ :: l', 0 => l'
  | a :: l', S i' => a :: drop_nth i' l'
  end.

Fixpoint set_nth {A} (i : nat) (a : A) (l : list A) : list A :=
  match l, i with
  | [], _ => []
  | _ :: l', 0 => a :: l'
  | b :: l', S i' => b :: set_nth i' a l'
  end.

Definition awaited (c : Component) (l : list Component) : bool :=
  existsb (Component_eqb c) l.

Definition others (c : Component) (l : list Component) : list Component :=
  filter (fun d => negb (Component_eqb c d)) l.

(** The [i]-th pending promise of [loader.create] resolves with [obj]: its
    continuation runs.  An exception in it rejects the derived promise,
    which nobody observes; what it did before stays done. *)
Definition loader_resolves (i : nat) (obj : Payload) (w : World) : World :=
  match nth_error (loading w) i with
  | Some _ => world_of (start_loaded obj (with_loading (drop_nth i (loading w)) w))
  | None => w
  end.

(** It rejects: [start] attached no rejection handler. *)
Definition loader_rejects (i : nat) (w : World) : World :=
  with_loading (drop_nth i (loading w)) w.

(** The promise of component [c]'s [create] in the [j]-th join resolves. *)
Definition create_resolves (j : nat) (c : Component) (w : World) : World :=
  match nth_error (joins w) j with
  | Some (Waiting l) =>
      if awaited c l then
        match others c l with
        | [] => world_of (start_joined (with_joins (set_nth j Joined (joins w)) w))
        | l' => with_joins (set_nth j (Waiting l') (joins w)) w
        end
      else w
  | _ => w
  end.

(** It rejects: so does [Promise.all], at once. *)
Definition create_rejects (j : nat) (c : Component) (w : World) : World :=
  match nth_error (joins w) j with
  | Some (Waiting l) =>
      if awaited c l then with_joins (set_nth j Broken (joins w)) w else w
  | _ => w
  end.

(** The display refreshes: one queued frame callback runs. *)
Definition frame (elapsed : num) (w : World) : World :=
  match frames w with
  | 0 => w
  | S n => world_of (animate elapsed (with_frames n w))
  end.

(** The layout gives the container a new size. *)
Definition layout (width height : Z) (w : World) : World :=
  match mount w with
  | Some c =>
      with_mount (Some {| display := display c; clientWidth := width;
                          clientHeight := height;
                          childNodes := childNodes c |}) w
  | None => w
  end.

(** The window is resized, or the observer reports a change of the
    container's attributes: both listeners are [onResize], and both exist
    once [render] has mounted the container. *)
Definition resized (w : World) : World :=
  match mount w with
  | Some _ => world_of (onResize w)
  | None => w
  end.

Inductive Input :=
| call_render
| call_start (sceneData : JSValue)
| call_stop
| call_resize
| host_layout (width height : Z)
| host_resize
| host_loader_resolves (i : nat) (obj : Payload)
| host_loader_rejects (i : nat)
| host_create_resolves (j : nat) (c : Component)
| host_create_rejects (j : nat) (c : Component)
| host_frame (elapsed : num).

Definition step (w : World) (i : Input) : World :=
  match i with
  | call_render => world_of (render w)
  | call_start v => world_of (start v w)
  | call_stop => world_of (stop w)
  | call_resize => world_of (resize w)
  | host_layout width height => layout width height w
  | host_resize => resized w
  | host_loader_resolves i obj => loader_resolves i obj w
  | host_loader_rejects i => loader_rejects i w
  | host_create_resolves j c => create_resolves j c w
  | host_create_rejects j c => create_rejects j c w
  | host_frame elapsed => frame elapsed w
  end.

Definition run (w : World) (inputs : list Input) : World :=
  fold_left step inputs w.

(** Every world the player can be in. *)
Definition reachable (w : World) : Prop :=
  exists o inputs, w = run (new_Player o) inputs.

(** ** Reading the log *)

(** The effects of setting up the rendering context: camera, renderer,
    audio listener, scene. *)
Definition is_bootstrap (e : Effect) : bool :=
  match e with
  | console_warn _ | new_PerspectiveCamera _ | camera_updateProjectionMatrix
  | camera_add_listener _ | new_WebGLRenderer _ | renderer_setSize _ _
  | new_AudioListener _ | new_THREE_Scene | dom_appendChild _
  | this_scene _ | this_camera _ | this_renderer _ => true
  | _ => false
  end.

Definition is_broadcast (e : Effect) : bool :=
  match e with
  | dispatch_call _ => true
  | _ => false
  end.

(** How many times a notification has been dispatched. *)
Definition broadcasts (l : list Effect) : nat :=
  List.length (filter is_broadcast l).

(** Each of the three effects of [start_joined] occurs nowhere else. *)
Definition is_event_init (e : Effect) : bool :=
  match e with
  | c_init event => true
  | _ => false
  end.

Definition is_clock_start (e : Effect) : bool :=
  match e with
  | clock_start => true
  | _ => false
  end.

Definition is_event_start (e : Effect) : bool :=
  match e with
  | c_start event => true
  | _ => false
  end.

Definition count (p : Effect -> bool) (l : list Effect) : nat :=
  List.length (filter p l).

(** The effects of [start_joined]. *)
Definition is_hook (e : Effect) : bool :=
  is_event_init e || is_clock_start e || is_event_start e.

Definition no_hook (e : Effect) : bool := negb (is_hook e).

(** [w'] comes from [w] by effects that are none of [start_joined]'s. *)
Definition quietly (w w' : World) : Prop :=
  exists es, log w' = log w ++ es /\ forallb no_hook es = true.

Definition is_Joined (j : Join) : bool :=
  match j with
  | Joined => true
  | _ => false
  end.

(** How many joins have had all their promises resolved. *)
Definition joined (js : list Join) : nat :=
  List.length (filter is_Joined js).

(** The continuation of a join has run as often as joins have completed. *)
Definition hooks_match (w : World) : Prop :=
  count is_event_init (log w) = joined (joins w) /\
  count is_clock_start (log w) = joined (joins w) /\
  count is_event_start (log w) = joined (joins w).

(** ** Further readings of the state and of the log *)

(** Scene, camera and renderer are all null or all set. *)
Definition context_whole (p : PlayerFields) : bool :=
  match scene p, camera p, renderer p with
  | Some _, Some _, Some _ => true
  | None, None, None => true
  | _, _, _ => false
  end.

(** What holds of the player whatever has been done to it: the context is
    whole; as long as [render] has not mounted the container nothing is
    loading and there is no context; the clock does not start by itself;
    it runs only if some join has completed; the stats overlay exists only
    if it was asked for. *)
Definition sound (w : World) : Prop :=
  context_whole (this w) = true /\
  (mount w = None -> loading w = [] /\ camera (this w) = None) /\
  autoStart (clock (this w)) = false /\
  (running (clock (this w)) = true -> 0 < joined (joins w)) /\
  (stats (this w) = true -> showStats (options (this w)) = true).

Definition is_listener (e : Effect) : bool :=
  match e with
  | window_addEventListener _ | MutationObserver_observe => true
  | _ => false
  end.

Definition is_create (e : Effect) : bool :=
  match e with
  | c_create _ _ _ _ _ => true
  | _ => false
  end.

Definition is_update (e : Effect) : bool :=
  match e with
  | c_update _ _ _ => true
  | _ => false
  end.

Definition is_frame_request (e : Effect) : bool :=
  match e with
  | requestAnimationFrame => true
  | _ => false
  end.

(** Neither a notification, nor a listener registration, nor a [create]. *)
Definition calm (e : Effect) : bool :=
  negb (is_broadcast e || is_listener e || is_create e).

Definition calmly (w w' : World) : Prop :=
  exists es, log w' = log w ++ es /\ forallb calm es = true.

(** How often [render] is called in a run. *)
Definition renders (inputs : list Input) : nat :=
  List.length
    (filter (fun i => match i with call_render => true | _ => false end)
            inputs).

(** The inputs that are calls of [start] or [stop]. *)
Definition is_start_or_stop (i : Input) : bool :=
  match i with
  | call_start _ | call_stop => true
  | _ => false
  end.

(** The canvas [initPlayer] will attach for a payload. *)
Definition canvas_for (obj : Payload) (w : World) : Ref :=
  match obj_renderer obj with
  | Some r => domElement r
  | None => Made (made w)
  end.

(** From [w] to [w']: [k] listener registrations, [d] notifications, six
    [create]s and one join per notification. *)
Definition ledger_step (w w' : World) (k d : nat) : Prop :=
  exists es,
    log w' = log w ++ es /\
    count is_listener es = k /\
    broadcasts es = d /\
    count is_create es = 6 * d /\
    List.length (joins w') = List.length (joins w) + d.


End Player.

Arguments Done {host A} a w.
Arguments Thrown {host A} e w.

(** ** A host to run the player on

    Numbers are kept as the expressions that produced them.  [JSON.parse] is
    given on the texts the examples below use: the empty object and the empty
    array parse, and anything else counts as a syntax error, which is what
    [JSON.parse] answers for the malformed text used there. *)

Inductive Number :=
| Int (z : Z)
| Quot (a b : Number).

Inductive SampleJson :=
| EmptyObject
| EmptyArray.

Definition sample_parse (text : string) : option SampleJson :=
  if String.eqb text "{}" then Some EmptyObject
  else if String.eqb text "[]" then Some EmptyArray
  else None.

#[local] Instance sample_host : Host := {|
  num := Number;
  num_of_Z := Int;
  num_div := Quot;
  json := SampleJson;
  JSON_parse := sample_parse;
  scripts := unit;
  animations := unit;
  window_origin := "http://localhost:2000"
|}.

(** A scene with nothing in it: no camera, no renderer, no listener, no
    scene graph. *)
Definition bare_payload : @Payload sample_host :=
  {| obj_camera := None; obj_renderer := None; obj_audioListener := None;
     obj_scene := None; obj_scripts := tt; obj_animations := tt |}.

Definition no_options : OptionsArg :=
  {| arg_server := None; arg_enableThrowBall := None; arg_showStats := None |}.

(** A rendered player in an 800 by 600 container. *)
Definition rendered : @World sample_host :=
  Eval vm_compute in
  run (new_Player no_options) [call_render; host_layout 800 600].

(** ... that has been started on the empty scene. *)
Definition started : @World sample_host :=
  Eval vm_compute in
  run rendered [call_start (JSString "{}")].

(** ... and whose loader has delivered. *)
Definition loaded : @World sample_host :=
  Eval vm_compute in
  run started [host_loader_resolves 0 bare_payload].

(** ... and whose six components are all created. *)
Definition created : @World sample_host :=
  Eval vm_compute in
  run loaded (map (host_create_resolves 0) six).

(** Unfolding one method on a world whose fields are known. *)
Ltac open_world w :=
  destruct w as [[? ? ? ? ? ? ?] ? ? ? ? ? ?]; simpl in *; subst.

Ltac step_m :=
  cbv [bind gets modify ret throw does when deref container_dom set_mount
       fresh assign_isPlaying assign_scene assign_camera assign_renderer
       Clock_start Clock_stop Clock_getDelta create update schedule_animate
       present world_of returns
       with_this with_mount with_log with_loading with_joins with_frames
       with_made put_scene put_camera put_renderer put_isPlaying put_clock
       put_stats
       this mount log loading joins frames made
       options scene camera renderer isPlaying clock stats
       autoStart running andb negb
       obj_camera obj_renderer obj_audioListener obj_scene obj_scripts
       obj_animations].

(** Splitting on whatever the run of a method is stuck on. *)
Ltac cases_m :=
  repeat (step_m;
          match goal with
          | |- context [match ?x with _ => _ end] => is_var x; destruct x
          | |- context [showStats ?o] => destruct (showStats o)
          | |- context [is_child ?n ?c] => destruct (is_child n c)
          end).

Ltac quiet_leaf :=
  split;
  [ unfold quietly; cbn [log]; rewrite <- ?app_assoc;
    first [ eexists; split; reflexivity
          | exists []; split; [now rewrite app_nil_r | reflexivity] ]
  | try reflexivity ].

(** * Properties *)

Section Properties.

Context {host : Host}.

Lemma typeof_string (v : JSValue) :
  typeof v = "string" -> exists s, v = JSString s.
Proof.
  destruct v; simpl; intro E; try discriminate E.
  now exists s.
Qed.

(** C3.  [start] with an argument that is not a string reports
    [need_string] through [UI.msg] and returns; with a string that
    [JSON.parse] rejects it reports [cannot_parse] and returns.  Neither
    throws, and in both the message is all that happened: the player's
    fields ([isPlaying] included), the container, the pending loads, joins
    and frame callbacks are as they were, so no rendering context was made
    and no component's [create] was called. *)
Theorem start_bad_input_changes_nothing (v : JSValue) (w : World) :
  (typeof v <> "string" ->
   start v w = Done tt (with_log (log w ++ [UI_msg need_string]) w)) /\
  (forall text, v = JSString text -> JSON_parse text = None ->
   start v w = Done tt (with_log (log w ++ [UI_msg cannot_parse]) w)) /\
  (typeof v <> "string" \/
   (exists text, v = JSString text /\ JSON_parse text = None) ->
   let w' := world_of (start v w) in
   returns (start v w) = true /\
   this w' = this w /\ mount w' = mount w /\ loading w' = loading w /\
   joins w' = joins w /\ frames w' = frames w /\ made w' = made w).
Proof.
  assert (A : typeof v <> "string" ->
              start v w = Done tt (with_log (log w ++ [UI_msg need_string]) w)).
  { destruct v; simpl; intro N; try reflexivity. now elim N. }
  assert (B : forall text, v = JSString text -> JSON_parse text = None ->
              start v w = Done tt (with_log (log w ++ [UI_msg cannot_parse]) w)).
  { intros text -> P. unfold start. rewrite P. reflexivity. }
  split; [exact A|]. split; [exact B|].
  intros [N | [text [E P]]]; simpl.
  - rewrite (A N). simpl. repeat split.
  - rewrite (B text E P). simpl. repeat split.
Qed.

(** C4.  [start] on parseable data while [isPlaying] is set returns at once:
    the world is exactly as before (no context, no frame callback, no
    [create]).  [stop] while [isPlaying] is clear returns at once, without an
    exception, and the world is exactly as before. *)
Theorem start_stop_idempotent (w : World) :
  (forall text jsons,
      JSON_parse text = Some jsons -> isPlaying (this w) = true ->
      start (JSString text) w = Done tt w) /\
  (isPlaying (this w) = false -> stop w = Done tt w).
Proof.
  split.
  - intros text jsons P E. unfold start. rewrite P.
    unfold bind, gets. rewrite E. reflexivity.
  - intro E. unfold stop, bind, gets. rewrite E. reflexivity.
Qed.

Lemma Ref_eqb_refl (n : Ref) : Ref_eqb n n = true.
Proof. destruct n; simpl; apply Nat.eqb_refl. Qed.

Lemma is_child_appendChild (n : Ref) (c : Container) :
  is_child n (appendChild n c) = true.
Proof.
  unfold is_child, appendChild; simpl.
  rewrite existsb_app; simpl.
  rewrite Ref_eqb_refl. now rewrite orb_true_r.
Qed.

(** The teardown of a session whose context is in place (renderer and scene
    set, the renderer's canvas a child of the container): the event
    component is stopped first; the seven components are disposed in the
    order loader, event, control, audio, playerRenderer, animation, physics;
    then the canvas is removed from the container and the container hidden;
    only then are scene, camera and renderer set to null; the clock is
    stopped last.  The call returns normally, and the container is left
    hidden, with its size and its other children as they were. *)
Lemma stop_with_context_in_place
      (w : World) (c : Container) (r : WebGLRenderer) (s : Scene) :
  isPlaying (this w) = true ->
  mount w = Some c ->
  renderer (this w) = Some r ->
  scene (this w) = Some s ->
  is_child (domElement r) c = true ->
  exists w',
    stop w = Done tt w' /\
    log w' = log w ++
      [this_isPlaying false;
       c_stop event;
       c_dispose loader; c_dispose event; c_dispose control;
       c_dispose audio; c_dispose playerRenderer; c_dispose animation;
       c_dispose physics;
       dom_removeChild (domElement r); style_display "none";
       scene_children_clear;
       this_scene false; this_camera false; this_renderer false;
       clock_stop] /\
    mount w' =
      Some {| display := "none";
              clientWidth := clientWidth c;
              clientHeight := clientHeight c;
              childNodes :=
                filter (fun m => negb (Ref_eqb (domElement r) m))
                       (childNodes c) |} /\
    isPlaying (this w') = false /\
    scene (this w') = None /\
    camera (this w') = None /\
    renderer (this w') = None /\
    clock (this w') = {| autoStart := false; running := false |} /\
    loading w' = loading w /\ joins w' = joins w /\ frames w' = frames w.
Proof.
  intros P Mo R S Ch. open_world w.
  unfold stop. step_m. rewrite Ch. step_m.
  eexists. split; [reflexivity|]. step_m.
  rewrite <- !app_assoc. simpl. repeat split.
Qed.

(** C10.  [stop] on a player that is playing but whose renderer is still
    null (the loader's promise has not resolved, so [initPlayer] has not
    run) clears [isPlaying], stops the event component and disposes all
    seven components, and then throws a [TypeError] on reading
    [this.renderer.domElement]: nothing is detached, the container is left
    as it was, and the clock is not stopped. *)
Theorem stop_before_bootstrap_throws (w : World) :
  isPlaying (this w) = true ->
  renderer (this w) = None ->
  stop w =
  Thrown TypeError
    (with_log
       (log w ++
        [this_isPlaying false;
         c_stop event;
         c_dispose loader; c_dispose event; c_dispose control; c_dispose audio;
         c_dispose playerRenderer; c_dispose animation; c_dispose physics])
       (with_this (put_isPlaying false) w)).
Proof.
  intros P R. open_world w.
  unfold stop. step_m.
  destruct mount0; step_m; rewrite <- !app_assoc; reflexivity.
Qed.

(** C6.  The order of the teardown is the one [stop_with_context_in_place]
    gives, but [stop] does not get through it from every playing state.
    Take a mounted, stopped player without a renderer and [start] it on
    parseable text: it is playing, and its loader's promise is pending.
    [stop] now clears [isPlaying], stops the event component and disposes
    the seven components, and then throws a [TypeError] on
    [this.renderer.domElement] (the null check [resize] makes is missing):
    the canvas is not detached, the container stays visible, and the clock
    is not stopped. *)
Theorem stop_in_unloaded_session_throws
        (w : World) (c : Container) (text : string) (jsons : json) :
  mount w = Some c ->
  isPlaying (this w) = false ->
  renderer (this w) = None ->
  JSON_parse text = Some jsons ->
  exists w1 w2,
    start (JSString text) w = Done tt w1 /\
    isPlaying (this w1) = true /\
    loading w1 = loading w ++ [jsons] /\
    stop w1 = Thrown TypeError w2 /\
    log w2 =
      log w1 ++
      [this_isPlaying false;
       c_stop event;
       c_dispose loader; c_dispose event; c_dispose control; c_dispose audio;
       c_dispose playerRenderer; c_dispose animation; c_dispose physics] /\
    isPlaying (this w2) = false /\
    mount w2 =
      Some {| display := EmptyString;
              clientWidth := clientWidth c;
              clientHeight := clientHeight c;
              childNodes := childNodes c |} /\
    scene (this w2) = scene (this w) /\
    camera (this w2) = camera (this w) /\
    clock (this w2) = clock (this w).
Proof.
  intros Mo P R J. open_world w. destruct c as [d cw ch nodes].
  unfold start. rewrite J. step_m.
  do 2 eexists. split; [reflexivity|]. step_m.
  split; [reflexivity|]. split; [reflexivity|].
  unfold stop. step_m.
  split; [reflexivity|]. step_m. rewrite <- !app_assoc.
  repeat split.
Qed.

Lemma stop_clears_isPlaying (w : World) :
  isPlaying (this (world_of (stop w))) = false.
Proof.
  open_world w. unfold stop. step_m.
  destruct isPlaying0; step_m; [|reflexivity].
  destruct mount0 as [c|]; step_m; [|reflexivity].
  destruct renderer0 as [r|]; step_m; [|reflexivity].
  destruct (is_child (domElement r) c); step_m; [|reflexivity].
  destruct scene0; step_m; reflexivity.
Qed.

Lemma animate_playing (elapsed : num) (w : World) :
  isPlaying (this w) = true ->
  exists w' clk deltaTime,
    animate elapsed w = Done tt w' /\
    log w' =
      log w ++
      (if stats (this w) then [stats_begin] else []) ++
      [clock_getDelta] ++
      map (fun c => c_update c clk deltaTime)
          [event; control; playerRenderer; animation; physics] ++
      (if stats (this w) then [stats_end] else []) ++
      [requestAnimationFrame] /\
    frames w' = S (frames w) /\
    isPlaying (this w') = true /\
    (autoStart (clock (this w)) = false ->
     clk = clock (this w) /\
     deltaTime = if running clk then elapsed else num_of_Z 0).
Proof.
  intro P. open_world w. unfold animate. step_m.
  destruct clock0 as [auto run]. step_m.
  destruct auto, run, stats0; step_m;
    do 3 eexists; (split; [reflexivity|]); step_m;
    rewrite <- ?app_assoc; simpl;
    (split; [reflexivity|]); repeat split; try discriminate.
Qed.

(** C7.  A frame tick on a playing player calls [update(clock, deltaTime)]
    on event, control, playerRenderer, animation, physics, in that order,
    once each and with the same clock and delta, between the optional stats
    marks, and then requests the next frame; the loader is not among them.
    A tick on a player that is not playing does nothing at all: no update,
    no new frame request.  Since [stop] clears [isPlaying] whether it
    returns or throws, the tick that follows a [stop] is such a tick. *)
Theorem animate_update_order (elapsed : num) (w : World) :
  (isPlaying (this w) = true ->
   exists w' clk deltaTime,
     animate elapsed w = Done tt w' /\
     log w' =
       log w ++
       (if stats (this w) then [stats_begin] else []) ++
       [clock_getDelta] ++
       map (fun c => c_update c clk deltaTime)
           [event; control; playerRenderer; animation; physics] ++
       (if stats (this w) then [stats_end] else []) ++
       [requestAnimationFrame] /\
     frames w' = S (frames w) /\
     isPlaying (this w') = true /\
     (autoStart (clock (this w)) = false ->
      clk = clock (this w) /\
      deltaTime = if running clk then elapsed else num_of_Z 0)) /\
  (isPlaying (this w) = false -> animate elapsed w = Done tt w) /\
  animate elapsed (world_of (stop w)) = Done tt (world_of (stop w)).
Proof.
  split; [|split].
  - apply animate_playing.
  - intro P. unfold animate, bind, gets. rewrite P. reflexivity.
  - pose proof (stop_clears_isPlaying w) as P.
    unfold animate, bind, gets. rewrite P. reflexivity.
Qed.

(** C9.  [resize] with the camera or the renderer null returns without an
    exception and leaves the world exactly as it was.  With both set (and
    the container mounted) it sets the camera's aspect to the container's
    width over its height, recomputes the projection from it, and sizes the
    renderer to the container's width and height. *)
Theorem resize_guarded (w : World) :
  (camera (this w) = None \/ renderer (this w) = None ->
   resize w = Done tt w) /\
  (forall cam r c,
      camera (this w) = Some cam ->
      renderer (this w) = Some r ->
      mount w = Some c ->
      let width := clientWidth c in
      let height := clientHeight c in
      let a := num_div (num_of_Z width) (num_of_Z height) in
      exists w' cam' r',
        resize w = Done tt w' /\
        camera (this w') = Some cam' /\
        renderer (this w') = Some r' /\
        aspect cam' = a /\
        projectionMatrix cam' = (fov cam, a, near cam, far cam) /\
        size r' = Some (width, height) /\
        domElement r' = domElement r /\
        log w' =
          log w ++ [camera_set_aspect a; camera_updateProjectionMatrix;
                    renderer_setSize width height]).
Proof.
  split.
  - intros [E | E]; open_world w; unfold resize; step_m.
    + reflexivity.
    + destruct camera0; reflexivity.
  - intros cam r c C R Mo width height a. open_world w.
    unfold resize. step_m.
    do 3 eexists. split; [reflexivity|]. step_m.
    rewrite <- !app_assoc. simpl. repeat split.
Qed.

(** C8.  [initPlayer] on a mounted player always ends with camera,
    renderer and scene set.  If the payload has no camera, the camera is a
    new perspective camera (fov 50, near 0.1, far 1000) whose aspect is the
    container's width over its height.  If it has no renderer, the renderer
    is a new one; in either case it is sized to the container's width and
    height and its canvas is appended to the container.  The payload's audio
    listener, or a new one if it has none, is added to the camera.  If the
    payload has no scene, the scene is a new, empty one. *)
Theorem initPlayer_defaults (w : World) (c : Container) (obj : Payload) :
  mount w = Some c ->
  let width := clientWidth c in
  let height := clientHeight c in
  exists w' cam r s l,
    initPlayer obj w = Done tt w' /\
    camera (this w') = Some cam /\
    renderer (this w') = Some r /\
    scene (this w') = Some s /\
    (obj_camera obj = None ->
     fov cam = num_of_Z 50 /\
     aspect cam = num_div (num_of_Z width) (num_of_Z height) /\
     near cam = num_div (num_of_Z 1) (num_of_Z 10) /\
     far cam = num_of_Z 1000 /\
     camera_children cam = [l]) /\
    (obj_renderer obj = None ->
     antialias r = true /\ domElement r = Made (made w)) /\
    size r = Some (width, height) /\
    mount w' = Some (appendChild (domElement r) c) /\
    is_child (domElement r) (appendChild (domElement r) c) = true /\
    (forall cam0, obj_camera obj = Some cam0 ->
                  camera_children cam = camera_children cam0 ++ [l]) /\
    (forall l0, obj_audioListener obj = Some l0 -> l = l0) /\
    (obj_audioListener obj = None ->
     exists k, l = Made k /\ made w <= k < made w') /\
    (obj_scene obj = None -> s = new_Scene).
Proof.
  intros Mo width height. open_world w.
  destruct obj as [ocam orend olis oscene scr ani].
  unfold initPlayer.
  destruct ocam as [cam0|], orend as [r0|], olis as [l0|], oscene as [s0|];
    step_m;
    do 5 eexists; (split; [reflexivity|]); step_m;
    rewrite is_child_appendChild;
    repeat match goal with
           | |- _ /\ _ => split
           | |- _ -> _ => intro
           | |- forall _, _ => intro
           | H : Some _ = Some _ |- _ => injection H as <-
           | H : Some _ = None |- _ => discriminate H
           | H : None = Some _ |- _ => discriminate H
           | |- exists k, Made ?n = Made k /\ _ =>
               exists n; split; [reflexivity | simpl; lia]
           | |- _ = _ => reflexivity
           end.
Qed.

(** ** Joins *)

Lemma Component_eqb_eq (a b : Component) : Component_eqb a b = true <-> a = b.
Proof. destruct a, b; simpl; split; congruence. Qed.

Lemma awaited_In (c : Component) (l : list Component) :
  awaited c l = true <-> In c l.
Proof.
  unfold awaited. rewrite existsb_exists. split.
  - intros [x [I E]]. apply Component_eqb_eq in E. now subst.
  - intro I. exists c. split; [exact I | now apply Component_eqb_eq].
Qed.

Lemma others_In (c d : Component) (l : list Component) :
  In d (others c l) <-> In d l /\ d <> c.
Proof.
  unfold others. rewrite filter_In. split; intros [I N]; split; auto.
  - intro E. subst.
    rewrite (proj2 (Component_eqb_eq c c) eq_refl) in N. discriminate.
  - destruct (Component_eqb c d) eqn:E; [|reflexivity].
    apply Component_eqb_eq in E. congruence.
Qed.

Lemma nth_error_set_nth {A} (l : list A) (j : nat) (x y : A) :
  nth_error l j = Some x -> nth_error (set_nth j y l) j = Some y.
Proof.
  revert j. induction l as [|a l IH]; intros [|j]; simpl; try discriminate.
  - reflexivity.
  - apply IH.
Qed.

Lemma nth_error_set_nth_ne {A} (l : list A) (i j : nat) (y : A) :
  i <> j -> nth_error (set_nth j y l) i = nth_error l i.
Proof.
  revert i j. induction l as [|a l IH]; intros [|i] [|j] N; simpl;
    try reflexivity.
  - now elim N.
  - apply IH. congruence.
Qed.

Lemma joined_set_nth (js : list Join) (j : nat) (x y : Join) :
  nth_error js j = Some x ->
  joined (set_nth j y js) + (if is_Joined x then 1 else 0) =
  joined js + (if is_Joined y then 1 else 0).
Proof.
  unfold joined.
  revert j. induction js as [|a js IH]; intros [|j]; simpl; try discriminate.
  - intros [= ->]. destruct x, y; simpl; lia.
  - intro E. specialize (IH j E). destruct a; simpl; lia.
Qed.

Lemma start_joined_run (w : World) :
  start_joined w =
  Done tt
    (with_this
       (put_clock {| autoStart := autoStart (clock (this w)); running := true |})
       (with_log (log w ++ [c_init event; clock_start; c_start event]) w)).
Proof.
  open_world w. unfold start_joined. step_m.
  rewrite <- !app_assoc. reflexivity.
Qed.

(** What the resolution of one [create] promise can do. *)
Lemma create_resolves_cases (j : nat) (c : Component) (w : World) :
  (exists l,
      nth_error (joins w) j = Some (Waiting l) /\ In c l /\ others c l = [] /\
      create_resolves j c w =
      world_of (start_joined (with_joins (set_nth j Joined (joins w)) w))) \/
  (exists l,
      nth_error (joins w) j = Some (Waiting l) /\ In c l /\ others c l <> [] /\
      create_resolves j c w =
      with_joins (set_nth j (Waiting (others c l)) (joins w)) w) \/
  ((forall l, nth_error (joins w) j = Some (Waiting l) -> ~ In c l) /\
   create_resolves j c w = w).
Proof.
  unfold create_resolves.
  destruct (nth_error (joins w) j) as [[l| |]|] eqn:E;
    try (right; right; split; [intros l' [=] | reflexivity]).
  destruct (awaited c l) eqn:A.
  - apply awaited_In in A.
    destruct (others c l) as [|d l'] eqn:O.
    + left. exists l. repeat split; assumption.
    + right; left. exists l. rewrite O. repeat split; try assumption.
      discriminate.
  - right; right. split; [|reflexivity].
    intros l' [= <-] I. apply awaited_In in I. congruence.
Qed.

Lemma run_cons (w : World) (i : Input) (inputs : list Input) :
  run w (i :: inputs) = run (step w i) inputs.
Proof. reflexivity. Qed.

Lemma run_app (w : World) (xs ys : list Input) :
  run w (xs ++ ys) = run (run w xs) ys.
Proof. unfold run. apply fold_left_app. Qed.

Lemma resolved_join_ignores (j : nat) (order : list Component) (w : World) :
  nth_error (joins w) j = Some Joined ->
  run w (map (host_create_resolves j) order) = w.
Proof.
  intro E. induction order as [|a order IH]; [reflexivity|].
  cbn [map]. rewrite run_cons. cbn [step].
  unfold create_resolves. rewrite E. exact IH.
Qed.

(** Once every awaited promise has resolved, in whatever order and however
    often the host reports it, the join's continuation has run exactly
    once. *)
Lemma join_completes (j : nat) (order : list Component) :
  forall (w : World) (l : list Component),
    nth_error (joins w) j = Some (Waiting l) ->
    l <> [] ->
    (forall c, In c l -> In c order) ->
    let w' := run w (map (host_create_resolves j) order) in
    log w' = log w ++ [c_init event; clock_start; c_start event] /\
    nth_error (joins w') j = Some Joined /\
    running (clock (this w')) = true /\
    isPlaying (this w') = isPlaying (this w) /\
    frames w' = frames w.
Proof.
  induction order as [|a order IH]; intros w l E N A.
  - destruct l as [|c l]; [now elim N|]. elim (A c). now left.
  - cbn [map]. rewrite run_cons. cbn [step].
    destruct (create_resolves_cases j a w)
      as [[l' [E' [I [O ->]]]] | [[l' [E' [I [O ->]]]] | [F ->]]].
    + rewrite start_joined_run. simpl.
      rewrite resolved_join_ignores.
      * simpl. repeat split.
        now apply nth_error_set_nth with (x := Waiting l').
      * simpl. now apply nth_error_set_nth with (x := Waiting l').
    + rewrite E in E'. injection E' as <-.
      specialize (IH (with_joins (set_nth j (Waiting (others a l)) (joins w)) w)
                     (others a l)).
      simpl in IH. apply IH.
      * now apply nth_error_set_nth with (x := Waiting l).
      * exact O.
      * intros c Ic. apply others_In in Ic. destruct Ic as [Ic Na].
        destruct (A c Ic) as [<- | R]; [now elim Na | exact R].
    + apply (IH w l E N).
      intros c Ic. destruct (A c Ic) as [<- | R]; [|exact R].
      elim (F l E Ic).
Qed.

(** While one of the awaited promises is still pending, nothing at all has
    happened. *)
Lemma join_incomplete (j : nat) (order : list Component) :
  forall (w : World) (l : list Component),
    nth_error (joins w) j = Some (Waiting l) ->
    (exists c, In c l /\ ~ In c order) ->
    let w' := run w (map (host_create_resolves j) order) in
    log w' = log w /\
    this w' = this w /\
    frames w' = frames w /\
    exists l', nth_error (joins w') j = Some (Waiting l') /\ l' <> [].
Proof.
  induction order as [|a order IH]; intros w l E [c [Ic Nc]].
  - cbn [map run fold_left]. repeat split. exists l. split; [exact E|].
    intros ->. exact Ic.
  - cbn [map]. rewrite run_cons. cbn [step].
    assert (c <> a) as Na by (intros ->; apply Nc; now left).
    assert (~ In c order) as Nc' by (intro; apply Nc; now right).
    destruct (create_resolves_cases j a w)
      as [[l' [E' [I [O ->]]]] | [[l' [E' [I [O ->]]]] | [F ->]]].
    + rewrite E in E'. injection E' as <-.
      assert (In c (others a l)) as X by (apply others_In; now split).
      rewrite O in X. elim X.
    + rewrite E in E'. injection E' as <-.
      specialize (IH (with_joins (set_nth j (Waiting (others a l)) (joins w)) w)
                     (others a l)).
      simpl in IH. apply IH.
      * now apply nth_error_set_nth with (x := Waiting l).
      * exists c. split; [apply others_In; now split | exact Nc'].
    + apply (IH w l E). exists c. now split.
Qed.

(** ** What the methods leave alone *)

Lemma render_quiet (w : World) :
  quietly w (world_of (render w)) /\ joins (world_of (render w)) = joins w.
Proof. open_world w. unfold render. cases_m; quiet_leaf. Qed.

Lemma start_quiet (v : JSValue) (w : World) :
  quietly w (world_of (start v w)) /\ joins (world_of (start v w)) = joins w.
Proof.
  open_world w. unfold start.
  destruct v; try (step_m; quiet_leaf).
  destruct (JSON_parse s); cases_m; quiet_leaf.
Qed.

Lemma stop_quiet (w : World) :
  quietly w (world_of (stop w)) /\ joins (world_of (stop w)) = joins w.
Proof. open_world w. unfold stop. cases_m; quiet_leaf. Qed.

Lemma resize_quiet (w : World) :
  quietly w (world_of (resize w)) /\ joins (world_of (resize w)) = joins w.
Proof. open_world w. unfold resize. cases_m; quiet_leaf. Qed.

Lemma animate_quiet (elapsed : num) (w : World) :
  quietly w (world_of (animate elapsed w)) /\
  joins (world_of (animate elapsed w)) = joins w.
Proof. open_world w. unfold animate. cases_m; quiet_leaf. Qed.

Lemma start_loaded_quiet (obj : Payload) (w : World) :
  quietly w (world_of (start_loaded obj w)) /\
  (joins (world_of (start_loaded obj w)) = joins w \/
   joins (world_of (start_loaded obj w)) = joins w ++ [Waiting six]).
Proof.
  open_world w. destruct obj as [ocam orend olis oscene scr ani].
  unfold start_loaded, initPlayer.
  destruct ocam, orend, olis, oscene, mount0; step_m; quiet_leaf;
    first [now left | now right].
Qed.

(** ** The join's continuation runs once per completed join *)

Lemma count_app (p : Effect -> bool) (l m : list Effect) :
  count p (l ++ m) = count p l + count p m.
Proof. unfold count. now rewrite filter_app, List.length_app. Qed.

Lemma count_quiet (p : Effect -> bool) (es : list Effect) :
  (forall e, p e = true -> is_hook e = true) ->
  forallb no_hook es = true ->
  count p es = 0.
Proof.
  intros S. induction es as [|e es IH]; simpl; intro Q; [reflexivity|].
  apply andb_true_iff in Q. destruct Q as [Qe Qes].
  unfold count. simpl. destruct (p e) eqn:E.
  - apply S in E. unfold no_hook in Qe. rewrite E in Qe. discriminate.
  - apply IH. exact Qes.
Qed.

Lemma quietly_hooks_match (w w' : World) :
  quietly w w' ->
  joined (joins w') = joined (joins w) ->
  hooks_match w -> hooks_match w'.
Proof.
  intros [es [L Q]] J [A [B C]]. unfold hooks_match.
  assert (count is_event_init es = 0) as Z1.
  { apply count_quiet; [|exact Q].
    intros e E. unfold is_hook. now rewrite E. }
  assert (count is_clock_start es = 0) as Z2.
  { apply count_quiet; [|exact Q].
    intros e E. unfold is_hook. rewrite E. now rewrite orb_true_r. }
  assert (count is_event_start es = 0) as Z3.
  { apply count_quiet; [|exact Q].
    intros e E. unfold is_hook. rewrite E. now rewrite !orb_true_r. }
  rewrite L, J, !count_app, Z1, Z2, Z3, !Nat.add_0_r.
  now repeat split.
Qed.

Lemma joined_app (js ks : list Join) :
  joined (js ++ ks) = joined js + joined ks.
Proof. unfold joined. now rewrite filter_app, List.length_app. Qed.

Lemma step_hooks_match (w : World) (i : Input) :
  hooks_match w -> hooks_match (step w i).
Proof.
  intro H. destruct i; cbn [step].
  - destruct (render_quiet w) as [Q J].
    apply (quietly_hooks_match w); [exact Q | now rewrite J | exact H].
  - destruct (start_quiet sceneData w) as [Q J].
    apply (quietly_hooks_match w); [exact Q | now rewrite J | exact H].
  - destruct (stop_quiet w) as [Q J].
    apply (quietly_hooks_match w); [exact Q | now rewrite J | exact H].
  - destruct (resize_quiet w) as [Q J].
    apply (quietly_hooks_match w); [exact Q | now rewrite J | exact H].
  - unfold layout. destruct (mount w); exact H.
  - unfold resized, onResize. destruct (mount w); [|exact H].
    destruct (resize_quiet w) as [Q J].
    apply (quietly_hooks_match w); [exact Q | now rewrite J | exact H].
  - unfold loader_resolves. destruct (nth_error (loading w) i); [|exact H].
    destruct (start_loaded_quiet obj (with_loading (drop_nth i (loading w)) w))
      as [Q [J | J]].
    + apply (quietly_hooks_match (with_loading (drop_nth i (loading w)) w));
        [exact Q | now rewrite J | exact H].
    + apply (quietly_hooks_match (with_loading (drop_nth i (loading w)) w));
        [exact Q | | exact H].
      rewrite J, joined_app. simpl. apply Nat.add_0_r.
  - exact H.
  - destruct (create_resolves_cases j c w)
      as [[l [E [I [O ->]]]] | [[l [E [I [O ->]]]] | [F ->]]]; [| |exact H].
    + rewrite start_joined_run. destruct H as [A [B C]].
      pose proof (joined_set_nth (joins w) j (Waiting l) Joined E) as JS.
      simpl in JS.
      unfold hooks_match. simpl. rewrite !count_app, A, B, C.
      unfold count. simpl. repeat split; lia.
    + pose proof (joined_set_nth (joins w) j (Waiting l)
                                 (Waiting (others c l)) E) as JS.
      simpl in JS. unfold hooks_match. simpl.
      replace (joined (set_nth j (Waiting (others c l)) (joins w)))
        with (joined (joins w)) by lia.
      exact H.
  - unfold create_rejects.
    destruct (nth_error (joins w) j) as [[l| |]|] eqn:E; try exact H.
    destruct (awaited c l); [|exact H].
    pose proof (joined_set_nth (joins w) j (Waiting l) Broken E) as JS.
    simpl in JS. unfold hooks_match. simpl.
    replace (joined (set_nth j Broken (joins w)))
      with (joined (joins w)) by lia.
    exact H.
  - unfold frame. destruct (frames w) as [|n]; [exact H|].
    destruct (animate_quiet elapsed (with_frames n w)) as [Q J].
    apply (quietly_hooks_match (with_frames n w));
      [exact Q | now rewrite J | exact H].
Qed.

Lemma run_hooks_match (inputs : list Input) :
  forall w, hooks_match w -> hooks_match (run w inputs).
Proof.
  induction inputs as [|i inputs IH]; intros w H; [exact H|].
  rewrite run_cons. apply IH. now apply step_hooks_match.
Qed.

(** ** A broken join stays broken *)

Lemma step_keeps_Broken (w : World) (i : Input) (j : nat) :
  nth_error (joins w) j = Some Broken ->
  nth_error (joins (step w i)) j = Some Broken.
Proof.
  intro B. destruct i; cbn [step].
  - now rewrite (proj2 (render_quiet w)).
  - now rewrite (proj2 (start_quiet sceneData w)).
  - now rewrite (proj2 (stop_quiet w)).
  - now rewrite (proj2 (resize_quiet w)).
  - unfold layout. destruct (mount w); exact B.
  - unfold resized, onResize. destruct (mount w); [|exact B].
    now rewrite (proj2 (resize_quiet w)).
  - unfold loader_resolves. destruct (nth_error (loading w) i); [|exact B].
    destruct (start_loaded_quiet obj (with_loading (drop_nth i (loading w)) w))
      as [_ [J | J]]; rewrite J; simpl; [exact B|].
    rewrite nth_error_app1; [exact B|].
    apply nth_error_Some. congruence.
  - exact B.
  - destruct (create_resolves_cases j0 c w)
      as [[l [E [I [O ->]]]] | [[l [E [I [O ->]]]] | [F ->]]]; [| |exact B].
    + rewrite start_joined_run. simpl.
      rewrite nth_error_set_nth_ne; [exact B|]. congruence.
    + simpl. rewrite nth_error_set_nth_ne; [exact B|]. congruence.
  - unfold create_rejects.
    destruct (nth_error (joins w) j0) as [[l| |]|] eqn:E; try exact B.
    destruct (awaited c l); [|exact B].
    simpl. rewrite nth_error_set_nth_ne; [exact B|]. congruence.
  - unfold frame. destruct (frames w) as [|n]; [exact B|].
    now rewrite (proj2 (animate_quiet elapsed (with_frames n w))).
Qed.

Lemma run_keeps_Broken (inputs : list Input) (j : nat) :
  forall w,
    nth_error (joins w) j = Some Broken ->
    nth_error (joins (run w inputs)) j = Some Broken.
Proof.
  induction inputs as [|i inputs IH]; intros w B; [exact B|].
  rewrite run_cons. apply IH. now apply step_keeps_Broken.
Qed.

(** ** The continuation of the loader *)

Lemma initPlayer_runs (w : World) (c : Container) (obj : Payload) :
  mount w = Some c ->
  exists w1 boot,
    initPlayer obj w = Done tt w1 /\
    log w1 = log w ++ boot /\
    forallb is_bootstrap boot = true /\
    present (scene (this w1)) = true /\
    present (camera (this w1)) = true /\
    present (renderer (this w1)) = true /\
    joins w1 = joins w /\
    frames w1 = frames w /\
    loading w1 = loading w /\
    isPlaying (this w1) = isPlaying (this w) /\
    clock (this w1) = clock (this w) /\
    stats (this w1) = stats (this w).
Proof.
  intros Mo. open_world w.
  destruct obj as [ocam orend olis oscene scr ani].
  unfold initPlayer.
  destruct ocam, orend, olis, oscene; step_m;
    do 2 eexists; (split; [reflexivity|]); cbn [log];
    rewrite <- ?app_assoc; (split; [reflexivity|]); repeat split.
Qed.

Lemma start_loaded_after (obj : Payload) (w w1 : World) :
  initPlayer obj w = Done tt w1 ->
  start_loaded obj w =
  Done tt
    (with_frames (S (frames w1))
       (with_joins (joins w1 ++ [Waiting six])
          (with_log
             (log w1 ++
              [dispatch_call "init";
               c_create event (scene (this w1)) (camera (this w1))
                        (renderer (this w1)) (extra_scripts (obj_scripts obj));
               c_create control (scene (this w1)) (camera (this w1))
                        (renderer (this w1)) no_extra;
               c_create audio (scene (this w1)) (camera (this w1))
                        (renderer (this w1)) no_extra;
               c_create playerRenderer (scene (this w1)) (camera (this w1))
                        (renderer (this w1)) no_extra;
               c_create animation (scene (this w1)) (camera (this w1))
                        (renderer (this w1))
                        (extra_animations (obj_animations obj));
               c_create physics (scene (this w1)) (camera (this w1))
                        (renderer (this w1)) no_extra;
               Promise_all six;
               requestAnimationFrame])
             w1))).
Proof.
  intro I. unfold start_loaded. unfold bind at 1. rewrite I.
  open_world w1. step_m. rewrite <- !app_assoc. reflexivity.
Qed.

Lemma broadcasts_app (l m : list Effect) :
  broadcasts (l ++ m) = broadcasts l + broadcasts m.
Proof. unfold broadcasts. now rewrite filter_app, List.length_app. Qed.

Lemma bootstrap_broadcasts (boot : list Effect) :
  forallb is_bootstrap boot = true -> broadcasts boot = 0.
Proof.
  unfold broadcasts.
  induction boot as [|e boot IH]; simpl; intro B; [reflexivity|].
  apply andb_true_iff in B. destruct B as [Be Bb].
  destruct e; simpl in *; try discriminate Be; now apply IH.
Qed.


(** C2, as the code has it.  Once all six [create] promises have resolved,
    in whatever order, the continuation of the join has called
    [event.init()], then [clock.start()], then [event.start()], and nothing
    else: the clock is running, and [init] and [start] have been called on
    the event component only. *)
Theorem post_join_hooks_on_event_only
        (w : World) (j : nat) (order : list Component) :
  nth_error (joins w) j = Some (Waiting six) ->
  (forall c, In c six -> In c order) ->
  let w' := run w (map (host_create_resolves j) order) in
  let hooks := [c_init event; clock_start; c_start event] in
  log w' = log w ++ hooks /\
  running (clock (this w')) = true /\
  nth_error (joins w') j = Some Joined /\
  (forall c, In (c_init c) hooks \/ In (c_start c) hooks -> c = event).
Proof.
  intros E A w' hooks.
  destruct (join_completes j order w six E) as [L [J [R _]]];
    [discriminate | exact A |].
  split; [exact L|]. split; [exact R|]. split; [exact J|].
  intros c [I | I]; simpl in I;
    repeat (destruct I as [I | I]; try discriminate I; try congruence);
    elim I.
Qed.

(** C1, as the code has it.  The continuation of the loader requests the
    first frame itself, right after it has called the six [create]s and
    handed their promises to [Promise.all]: all six are still pending then.
    What waits for the six is the continuation of the join only: while one
    of them has not resolved nothing happens, and if one rejects the join is
    broken for good, its continuation never runs, and yet [isPlaying] and
    the queued frame callback are untouched, so the next tick updates the
    components and requests another.  In every world the player can reach,
    [event.init], [clock.start] and [event.start] have each been called as
    often as joins have completed. *)
Theorem frame_loop_does_not_wait_for_join
        (w : World) (c : Container) (obj : Payload) :
  mount w = Some c ->
  exists w',
    start_loaded obj w = Done tt w' /\
    frames w' = S (frames w) /\
    joins w' = joins w ++ [Waiting six] /\
    (exists l, log w' = l ++ [Promise_all six; requestAnimationFrame]) /\
    isPlaying (this w') = isPlaying (this w) /\
    let j := List.length (joins w) in
    (forall order,
        (exists x, In x six /\ ~ In x order) ->
        let w'' := run w' (map (host_create_resolves j) order) in
        log w'' = log w' /\ this w'' = this w' /\ frames w'' = frames w') /\
    (forall x,
        In x six ->
        let wr := create_rejects j x w' in
        log wr = log w' /\ this wr = this w' /\ frames wr = frames w' /\
        (forall inputs, nth_error (joins (run wr inputs)) j = Some Broken) /\
        (forall elapsed,
            isPlaying (this w) = true ->
            exists clk deltaTime,
              log (frame elapsed wr) =
                log wr ++
                (if stats (this wr) then [stats_begin] else []) ++
                [clock_getDelta] ++
                map (fun c => c_update c clk deltaTime)
                    [event; control; playerRenderer; animation; physics] ++
                (if stats (this wr) then [stats_end] else []) ++
                [requestAnimationFrame] /\
              frames (frame elapsed wr) = frames wr /\
              isPlaying (this (frame elapsed wr)) = true)) /\
    (forall w0, reachable w0 -> hooks_match w0).
Proof.
  intro Mo.
  destruct (initPlayer_runs w c obj Mo)
    as (w1 & boot & I & L & _ & _ & _ & _ & J & F & _ & P & _ & St).
  eexists. split; [apply (start_loaded_after obj w w1 I)|].
  cbn [frames joins log this with_frames with_joins with_log].
  split; [now rewrite F|]. split; [now rewrite J|].
  split.
  { eexists.
    match goal with
    | |- _ ++ ?xs = _ =>
        change xs with (firstn 7 xs ++ [Promise_all six; requestAnimationFrame])
    end.
    rewrite app_assoc. reflexivity. }
  split; [exact P|].
  set (w' := with_frames _ _).
  assert (nth_error (joins w') (List.length (joins w)) = Some (Waiting six))
    as E.
  { unfold w'. cbn [joins with_frames with_joins with_log]. rewrite J.
    rewrite nth_error_app2 by lia. now rewrite Nat.sub_diag. }
  split; [|split].
  - intros order X.
    destruct (join_incomplete (List.length (joins w)) order w' six E X)
      as [A [B [C _]]].
    now repeat split.
  - intros x Ix. unfold create_rejects. rewrite E.
    rewrite (proj2 (awaited_In x six) Ix).
    set (wr := with_joins _ w').
    split; [reflexivity|]. split; [reflexivity|]. split; [reflexivity|].
    split.
    + intro inputs. apply run_keeps_Broken.
      unfold wr. cbn [joins with_joins].
      now apply nth_error_set_nth with (x := Waiting six).
    + intros elapsed Pw. unfold frame.
      replace (frames wr) with (S (frames w1)) by reflexivity.
      destruct (animate_playing elapsed (with_frames (frames w1) wr))
        as [wa [clk [d [An [La [Fa [Pa _]]]]]]].
      { unfold wr, w'. cbn [this with_frames with_joins with_log].
        now rewrite P. }
      exists clk, d. rewrite An. cbn [world_of].
      split; [exact La|]. split; [exact Fa | exact Pa].
  - intros w0 [o [inputs ->]]. apply run_hooks_match.
    unfold hooks_match, count, joined. simpl. now repeat split.
Qed.

End Properties.

(** * The properties on the sample runs *)

Lemma start_bad_input_changes_nothing_witness :
  start (JSNumber 42) rendered =
    Done tt (with_log (log rendered ++ [UI_msg need_string]) rendered) /\
  start (JSString "{not json") rendered =
    Done tt (with_log (log rendered ++ [UI_msg cannot_parse]) rendered) /\
  isPlaying (this (world_of (start (JSNumber 42) rendered))) = false.
Proof.
  destruct (@start_bad_input_changes_nothing sample_host (JSNumber 42) rendered)
    as [A [_ C]].
  destruct (@start_bad_input_changes_nothing sample_host
              (JSString "{not json") rendered) as [_ [B _]].
  split; [apply A; discriminate|].
  split; [apply (B "{not json"); reflexivity|].
  assert (typeof (JSNumber 42) <> "string") as N by discriminate.
  destruct (C (or_introl N)) as [_ [T _]].
  rewrite T. reflexivity.
Defined.

Lemma start_stop_idempotent_witness :
  start (JSString "{}") loaded = Done tt loaded /\
  stop rendered = Done tt rendered.
Proof.
  split.
  - apply (proj1 (@start_stop_idempotent sample_host loaded) "{}" EmptyObject);
      reflexivity.
  - apply (proj2 (@start_stop_idempotent sample_host rendered)); reflexivity.
Defined.

Lemma animate_update_order_witness :
  (exists w', animate (Int 16) loaded = Done tt w' /\ frames w' = 2) /\
  animate (Int 16) rendered = Done tt rendered.
Proof.
  destruct (@animate_update_order sample_host (Int 16) loaded) as [A _].
  destruct (@animate_update_order sample_host (Int 16) rendered) as [_ [B _]].
  split.
  - destruct (A eq_refl) as (w' & clk & d & R & _ & F & _).
    exists w'. split; [exact R | exact F].
  - apply B. reflexivity.
Defined.

Lemma initPlayer_defaults_witness :
  exists w' cam r,
    initPlayer bare_payload started = Done tt w' /\
    camera (this w') = Some cam /\
    renderer (this w') = Some r /\
    aspect cam = Quot (Int 800) (Int 600) /\
    size r = Some (800%Z, 600%Z).
Proof.
  destruct (@initPlayer_defaults sample_host started
              {| display := EmptyString; clientWidth := 800;
                 clientHeight := 600; childNodes := [] |}
              bare_payload eq_refl)
    as (w' & cam & r & s & l & R & C & Rn & _ & Dc & _ & Sz & _).
  exists w', cam, r.
  split; [exact R|]. split; [exact C|]. split; [exact Rn|].
  split; [exact (proj1 (proj2 (Dc eq_refl))) | exact Sz].
Defined.

Lemma resize_guarded_witness :
  resize rendered = Done tt rendered /\
  exists w' cam',
    resize (layout 1024 512 loaded) = Done tt w' /\
    camera (this w') = Some cam' /\
    aspect cam' = Quot (Int 1024) (Int 512).
Proof.
  split.
  - apply (proj1 (@resize_guarded sample_host rendered)). left. reflexivity.
  - destruct (proj2 (@resize_guarded sample_host (layout 1024 512 loaded))
                    _ _ _ eq_refl eq_refl eq_refl)
      as (w' & cam' & r' & R & C & _ & A & _).
    exists w', cam'. split; [exact R|]. split; [exact C | exact A].
Defined.

Lemma stop_before_bootstrap_throws_witness :
  returns (stop started) = false /\
  isPlaying (this (world_of (stop started))) = false /\
  clock (this (world_of (stop started))) = clock (this started) /\
  mount (world_of (stop started)) = mount started.
Proof.
  rewrite (@stop_before_bootstrap_throws sample_host started eq_refl eq_refl).
  repeat split.
Defined.

Lemma post_join_hooks_on_event_only_witness :
  log created = log loaded ++ [c_init event; clock_start; c_start event].
Proof.
  destruct (@post_join_hooks_on_event_only sample_host loaded 0 six eq_refl)
    as [L _].
  - intros c I. exact I.
  - exact L.
Defined.

Lemma frame_loop_does_not_wait_for_join_witness :
  exists w',
    start_loaded bare_payload started = Done tt w' /\
    frames w' = 1 /\
    joins w' = [Waiting six].
Proof.
  destruct (@frame_loop_does_not_wait_for_join sample_host started
              {| display := EmptyString; clientWidth := 800;
                 clientHeight := 600; childNodes := [] |}
              bare_payload eq_refl)
    as (w' & R & F & J & _).
  exists w'. split; [exact R|]. split; [exact F | exact J].
Defined.

(** The sample session refutes C1 as the spec has it: a frame callback is
    queued while the join still waits for all six [create]s, and after one
    of them has rejected a tick has nevertheless updated the components. *)
Lemma frame_loop_runs_without_join :
  ~ (0 < frames loaded -> Forall (fun j => j = Joined) (joins loaded)) /\
  ~ (let w := run loaded [host_create_rejects 0 physics;
                          host_frame (Int 16 : @num sample_host)] in
     In Broken (joins w) ->
     forall clk d, ~ In (c_update physics clk d) (log w)).
Proof.
  split.
  - intro H. assert (0 < frames loaded) as F by (vm_compute; lia).
    specialize (H F). inversion H as [|j js Hj _ E]. discriminate Hj.
  - intro H. cbv zeta in H.
    apply (H (or_introl eq_refl)
             {| autoStart := false; running := false |} (Int 0)).
    vm_compute. repeat (first [left; reflexivity | right]).
Qed.

(** The sample session refutes C2 as the spec has it: after all six
    [create]s have resolved, [start] has been called on no component but
    event. *)
Lemma no_start_hook_on_control :
  ~ (forall c, In c six -> In (@c_start sample_host c) (log created)).
Proof.
  intro H. specialize (H control (or_intror (or_introl eq_refl))).
  vm_compute in H.
  repeat (destruct H as [H | H]; [discriminate H|]).
  exact H.
Qed.

(** * More about the player *)

Section Further.

Context {host : Host}.

(** ** What every reachable state satisfies *)

Ltac sound_leaf :=
  unfold sound, context_whole in *; cbn in *;
  intuition (try discriminate; try congruence; auto).

Lemma render_sound (w : World) : sound w -> sound (world_of (render w)).
Proof.
  intro S. open_world w. unfold render. step_m.
  destruct (showStats options0) eqn:E; step_m; sound_leaf.
Qed.

Lemma start_sound (v : JSValue) (w : World) :
  sound w -> sound (world_of (start v w)).
Proof.
  intro S. open_world w. unfold start.
  destruct v; try (step_m; exact S).
  destruct (JSON_parse s); step_m; [|exact S].
  destruct isPlaying0; step_m; [exact S|].
  destruct mount0; step_m; sound_leaf.
Qed.

Lemma stop_sound (w : World) : sound w -> sound (world_of (stop w)).
Proof.
  intro S. open_world w. unfold stop. step_m.
  destruct isPlaying0; step_m; [|exact S].
  destruct mount0 as [c|]; step_m; [|sound_leaf].
  destruct renderer0 as [r|]; step_m; [|sound_leaf].
  destruct (is_child (domElement r) c); step_m; [|sound_leaf].
  destruct scene0; step_m; sound_leaf.
Qed.

Lemma resize_sound (w : World) : sound w -> sound (world_of (resize w)).
Proof.
  intro S. open_world w. unfold resize. step_m.
  destruct camera0; step_m; [|exact S].
  destruct renderer0; step_m; [|exact S].
  destruct mount0; step_m; [|exact S].
  destruct scene0; sound_leaf.
Qed.

Lemma animate_sound (elapsed : num) (w : World) :
  sound w -> sound (world_of (animate elapsed w)).
Proof.
  intro S. open_world w. unfold animate. step_m.
  destruct isPlaying0; step_m; [|exact S].
  destruct clock0 as [auto run].
  assert (auto = false) as -> by (unfold sound in S; cbn in S; tauto).
  step_m. destruct run, stats0; step_m; sound_leaf.
Qed.

Lemma start_loaded_sound (obj : Payload) (w : World) :
  sound w -> mount w <> None -> sound (world_of (start_loaded obj w)).
Proof.
  intros S Mo. open_world w. destruct mount0 as [c|]; [clear Mo|now elim Mo].
  destruct obj as [ocam orend olis oscene scr ani].
  unfold start_loaded, initPlayer.
  destruct ocam, orend, olis, oscene; step_m; sound_leaf;
    rewrite filter_app, List.length_app; simpl; lia.
Qed.

Lemma joined_set_nth_Waiting (js : list Join) (j : nat)
      (l : list Component) (y : Join) :
  nth_error js j = Some (Waiting l) ->
  joined js <= joined (set_nth j y js).
Proof.
  intro E. pose proof (joined_set_nth js j (Waiting l) y E) as JS.
  simpl in JS. destruct (is_Joined y); lia.
Qed.

Lemma sound_with_loading (w : World) (l : list json) :
  sound w -> (mount w = None -> l = []) -> sound (with_loading l w).
Proof. unfold sound. simpl. intuition. Qed.

Lemma sound_with_frames (w : World) (n : nat) :
  sound w -> sound (with_frames n w).
Proof. unfold sound. simpl. intuition. Qed.

Lemma sound_with_joins (w : World) (js : list Join) :
  sound w -> joined (joins w) <= joined js -> sound (with_joins js w).
Proof. unfold sound. simpl. intuition. lia. Qed.

Lemma sound_with_mount (w : World) (c : Container) :
  sound w -> sound (with_mount (Some c) w).
Proof. unfold sound. simpl. intuition; discriminate. Qed.

Lemma pending_load_mounted (w : World) (i : nat) (js : json) :
  sound w -> nth_error (loading w) i = Some js -> mount w <> None.
Proof.
  intros (_ & B & _) N Mo. destruct (B Mo) as [L _].
  rewrite L in N. destruct i; discriminate N.
Qed.

Lemma step_sound (w : World) (i : Input) : sound w -> sound (step w i).
Proof.
  intro S. destruct i; cbn [step].
  - now apply render_sound.
  - now apply start_sound.
  - now apply stop_sound.
  - now apply resize_sound.
  - unfold layout. destruct (mount w) eqn:Mo; [|exact S].
    now apply sound_with_mount.
  - unfold resized, onResize. destruct (mount w); [|exact S].
    now apply resize_sound.
  - unfold loader_resolves.
    destruct (nth_error (loading w) i) as [js|] eqn:N; [|exact S].
    pose proof (pending_load_mounted w i js S N) as Mo.
    apply start_loaded_sound; [|exact Mo].
    apply sound_with_loading; [exact S|]. intro X. now elim Mo.
  - unfold loader_rejects. apply sound_with_loading; [exact S|].
    intro Mo. destruct S as (_ & B & _). destruct (B Mo) as [L _].
    rewrite L. now destruct i.
  - destruct (create_resolves_cases j c w)
      as [[l [E [I [O ->]]]] | [[l [E [I [O ->]]]] | [F ->]]]; [| |exact S].
    + rewrite start_joined_run. cbn [world_of].
      pose proof (joined_set_nth (joins w) j (Waiting l) Joined E) as JS.
      simpl in JS.
      destruct S as (A & B & C & D & G). unfold sound. simpl.
      intuition. lia.
    + apply sound_with_joins; [exact S|].
      now apply joined_set_nth_Waiting with (l := l).
  - unfold create_rejects.
    destruct (nth_error (joins w) j) as [[l| |]|] eqn:E; try exact S.
    destruct (awaited c l); [|exact S].
    apply sound_with_joins; [exact S|].
    now apply joined_set_nth_Waiting with (l := l).
  - unfold frame. destruct (frames w) as [|n]; [exact S|].
    apply animate_sound. now apply sound_with_frames.
Qed.

Lemma reachable_sound (w : World) : reachable w -> sound w.
Proof.
  intros [o [inputs ->]].
  assert (sound (new_Player o)) as S0.
  { unfold sound, context_whole, joined. simpl.
    repeat split; auto; discriminate. }
  revert S0. generalize (new_Player o).
  induction inputs as [|i inputs IH]; intros w S; [exact S|].
  rewrite run_cons. apply IH. now apply step_sound.
Qed.

(** X2.  Whatever calls and host events the player has seen since it was
    constructed, its scene, camera and renderer are all null or all set;
    and until [render] has mounted the container, nothing is loading and
    there is no context. *)
Theorem context_is_all_or_nothing (w : World) :
  reachable w ->
  ((scene (this w) = None /\ camera (this w) = None /\
    renderer (this w) = None) \/
   (exists s c r,
       scene (this w) = Some s /\ camera (this w) = Some c /\
       renderer (this w) = Some r /\ mount w <> None)) /\
  (mount w = None -> loading w = []).
Proof.
  intro R. destruct (reachable_sound w R) as (A & B & _).
  split; [|intro Mo; now destruct (B Mo)].
  unfold context_whole in A.
  destruct (scene (this w)) as [s|], (camera (this w)) as [c|] eqn:C,
           (renderer (this w)) as [r|]; try discriminate A.
  - right. exists s, c, r. repeat split.
    intro Mo. destruct (B Mo) as [_ X]. discriminate X.
  - left. now repeat split.
Qed.

(** X3.  In no reachable state does [resize] (or the resize listener) throw;
    it changes neither [isPlaying] nor what is pending. *)
Theorem resize_never_throws (w : World) :
  reachable w ->
  exists w',
    resize w = Done tt w' /\
    isPlaying (this w') = isPlaying (this w) /\
    options (this w') = options (this w) /\
    mount w' = mount w /\
    loading w' = loading w /\
    joins w' = joins w /\
    frames w' = frames w.
Proof.
  intro R. destruct (reachable_sound w R) as (A & B & _).
  open_world w. unfold resize. step_m.
  destruct camera0 as [c|]; step_m;
    [|eexists; split; [reflexivity|]; now repeat split].
  destruct renderer0 as [r|]; step_m;
    [|eexists; split; [reflexivity|]; now repeat split].
  destruct mount0 as [m|]; step_m.
  - eexists. split; [reflexivity|]. now repeat split.
  - destruct (B eq_refl) as [_ X]. discriminate X.
Qed.

(** X4.  In a reachable state, when a pending promise of the loader
    resolves, the bootstrap goes through: afterwards scene, camera and
    renderer are set, "init" has been dispatched once more, one more join
    waits for the six [create]s, and one more frame callback is queued. *)
Theorem loader_resolution_completes_bootstrap
        (w : World) (i : nat) (jsons : json) (obj : Payload) :
  reachable w ->
  nth_error (loading w) i = Some jsons ->
  let w' := loader_resolves i obj w in
  present (scene (this w')) = true /\
  present (camera (this w')) = true /\
  present (renderer (this w')) = true /\
  broadcasts (log w') = S (broadcasts (log w)) /\
  joins w' = joins w ++ [Waiting six] /\
  frames w' = S (frames w) /\
  loading w' = drop_nth i (loading w) /\
  isPlaying (this w') = isPlaying (this w).
Proof.
  intros R N w'. pose proof (reachable_sound w R) as S.
  pose proof (pending_load_mounted w i jsons S N) as Mo.
  unfold w', loader_resolves. rewrite N.
  destruct (mount w) as [c|] eqn:Mc; [clear Mo|now elim Mo].
  destruct (initPlayer_runs (with_loading (drop_nth i (loading w)) w) c obj Mc)
    as (w1 & boot & I & L & B & Ps & Pc & Pr & J & F & Lo & P & _).
  rewrite (start_loaded_after obj _ w1 I).
  cbn [world_of this log joins frames loading
       with_frames with_joins with_log].
  repeat split; try assumption.
  - rewrite L. cbn [log with_loading].
    rewrite !broadcasts_app, (bootstrap_broadcasts boot B).
    match goal with
    | |- context [broadcasts (dispatch_call ?n :: ?l)] =>
        change (broadcasts (dispatch_call n :: l)) with 1
    end.
    lia.
  - now rewrite J.
  - now rewrite F.
Qed.

(** X7.  The clock never starts by itself, and it runs only once a join has
    completed.  So in a reachable state in which no join has completed yet,
    a tick of a playing player passes [deltaTime] 0 to all five updates,
    whatever time has elapsed. *)
Theorem ticks_before_join_pass_zero (elapsed : num) (w : World) :
  reachable w ->
  isPlaying (this w) = true ->
  joined (joins w) = 0 ->
  running (clock (this w)) = false /\
  exists w',
    animate elapsed w = Done tt w' /\
    clock (this w') = clock (this w) /\
    log w' =
      log w ++
      (if stats (this w) then [stats_begin] else []) ++
      [clock_getDelta] ++
      map (fun c => c_update c (clock (this w)) (num_of_Z 0))
          [event; control; playerRenderer; animation; physics] ++
      (if stats (this w) then [stats_end] else []) ++
      [requestAnimationFrame].
Proof.
  intros R P J. destruct (reachable_sound w R) as (_ & _ & C & D & _).
  assert (running (clock (this w)) = false) as Rn.
  { destruct (running (clock (this w))); [|reflexivity].
    specialize (D eq_refl). lia. }
  split; [exact Rn|].
  open_world w. destruct clock0 as [auto run]. simpl in *. subst.
  unfold animate. step_m.
  destruct stats0; step_m; eexists; (split; [reflexivity|]); step_m;
    rewrite <- ?app_assoc; split; reflexivity.
Qed.

(** ** Who changes [isPlaying] and the options *)

Ltac keeps_leaf := cases_m; repeat split; reflexivity.

Lemma render_keeps (w : World) :
  isPlaying (this (world_of (render w))) = isPlaying (this w) /\
  options (this (world_of (render w))) = options (this w).
Proof. open_world w. unfold render. keeps_leaf. Qed.

Lemma resize_keeps (w : World) :
  isPlaying (this (world_of (resize w))) = isPlaying (this w) /\
  options (this (world_of (resize w))) = options (this w).
Proof. open_world w. unfold resize. keeps_leaf. Qed.

Lemma animate_keeps (elapsed : num) (w : World) :
  isPlaying (this (world_of (animate elapsed w))) = isPlaying (this w) /\
  options (this (world_of (animate elapsed w))) = options (this w).
Proof. open_world w. unfold animate. keeps_leaf. Qed.

Lemma start_loaded_keeps (obj : Payload) (w : World) :
  isPlaying (this (world_of (start_loaded obj w))) = isPlaying (this w) /\
  options (this (world_of (start_loaded obj w))) = options (this w).
Proof.
  open_world w. destruct obj as [ocam orend olis oscene scr ani].
  unfold start_loaded, initPlayer.
  destruct ocam, orend, olis, oscene, mount0; step_m; split; reflexivity.
Qed.

Lemma start_keeps_options (v : JSValue) (w : World) :
  options (this (world_of (start v w))) = options (this w).
Proof.
  open_world w. unfold start.
  destruct v; try (step_m; reflexivity).
  destruct (JSON_parse s); cases_m; reflexivity.
Qed.

Lemma stop_keeps_options (w : World) :
  options (this (world_of (stop w))) = options (this w).
Proof. open_world w. unfold stop. cases_m; reflexivity. Qed.

Lemma step_keeps_options (w : World) (i : Input) :
  options (this (step w i)) = options (this w).
Proof.
  destruct i; cbn [step].
  - apply render_keeps.
  - apply start_keeps_options.
  - apply stop_keeps_options.
  - apply resize_keeps.
  - unfold layout. now destruct (mount w).
  - unfold resized, onResize. destruct (mount w); [apply resize_keeps|easy].
  - unfold loader_resolves. destruct (nth_error (loading w) i); [|easy].
    now rewrite (proj2 (start_loaded_keeps obj _)).
  - reflexivity.
  - destruct (create_resolves_cases j c w)
      as [[l [E [I [O ->]]]] | [[l [E [I [O ->]]]] | [F ->]]];
      try rewrite start_joined_run; reflexivity.
  - unfold create_rejects.
    destruct (nth_error (joins w) j) as [[l| |]|]; try easy.
    now destruct (awaited c l).
  - unfold frame. destruct (frames w); [easy|].
    now rewrite (proj2 (animate_keeps elapsed _)).
Qed.

Lemma step_keeps_isPlaying (w : World) (i : Input) :
  is_start_or_stop i = false ->
  isPlaying (this (step w i)) = isPlaying (this w).
Proof.
  destruct i; cbn [step is_start_or_stop]; intro N; try discriminate N.
  - apply render_keeps.
  - apply resize_keeps.
  - unfold layout. now destruct (mount w).
  - unfold resized, onResize. destruct (mount w); [apply resize_keeps|easy].
  - unfold loader_resolves. destruct (nth_error (loading w) i); [|easy].
    now rewrite (proj1 (start_loaded_keeps obj _)).
  - reflexivity.
  - destruct (create_resolves_cases j c w)
      as [[l [E [I [O ->]]]] | [[l [E [I [O ->]]]] | [F ->]]];
      try rewrite start_joined_run; reflexivity.
  - unfold create_rejects.
    destruct (nth_error (joins w) j) as [[l| |]|]; try easy.
    now destruct (awaited c l).
  - unfold frame. destruct (frames w); [easy|].
    now rewrite (proj1 (animate_keeps elapsed _)).
Qed.

(** X1.  [isPlaying] is changed by calls of [start] and [stop] and by
    nothing else: no rendering, resizing, layout change, settling of a
    promise or frame tick touches it.  A [start] on parseable text leaves it
    set, even when the call throws; a [stop] leaves it clear, even when the
    call throws. *)
Theorem isPlaying_follows_start_and_stop (w : World) (inputs : list Input) :
  forallb (fun i => negb (is_start_or_stop i)) inputs = true ->
  isPlaying (this (run w inputs)) = isPlaying (this w) /\
  isPlaying (this (step (run w inputs) call_stop)) = false /\
  (forall text jsons,
      JSON_parse text = Some jsons ->
      isPlaying (this (step (run w inputs) (call_start (JSString text))))
      = true).
Proof.
  intro N. split; [|split].
  - revert w. induction inputs as [|i inputs IH]; intro w; [reflexivity|].
    simpl in N. apply andb_true_iff in N. destruct N as [Ni Nr].
    rewrite run_cons, (IH Nr). apply step_keeps_isPlaying.
    now destruct (is_start_or_stop i).
  - apply stop_clears_isPlaying.
  - intros text jsons P. generalize (run w inputs). intro w0.
    cbn [step]. open_world w0. unfold start. rewrite P. step_m.
    destruct isPlaying0; step_m; [reflexivity|].
    destruct mount0; reflexivity.
Qed.

Lemma run_keeps_options (inputs : list Input) :
  forall w, options (this (run w inputs)) = options (this w).
Proof.
  induction inputs as [|i inputs IH]; intro w; [reflexivity|].
  rewrite run_cons, IH. apply step_keeps_options.
Qed.

(** X11.  No call and no host event changes the options the constructor
    settled, and the stats overlay exists only in a player that was
    constructed with [showStats: true]. *)
Theorem options_are_fixed (o : OptionsArg) (inputs : list Input) :
  let w := run (new_Player o) inputs in
  options (this w) = options (this (new_Player o)) /\
  (stats (this w) = true -> arg_showStats o = Some true).
Proof.
  intro w.
  assert (options (this w) = options (this (new_Player o))) as O
      by apply run_keeps_options.
  split; [exact O|].
  intro St.
  assert (reachable w) as R by (exists o, inputs; reflexivity).
  destruct (reachable_sound w R) as (_ & _ & _ & _ & G).
  specialize (G St). rewrite O in G. simpl in G.
  destruct (arg_showStats o) as [[|]|]; try discriminate G. reflexivity.
Qed.

(** ** Frame ticks *)

Lemma animate_stopped (elapsed : num) (w : World) :
  isPlaying (this w) = false -> animate elapsed w = Done tt w.
Proof. intro P. unfold animate, bind, gets. rewrite P. reflexivity. Qed.

(** X5.  Once [isPlaying] is clear, frame ticks only use up the callbacks
    that are still queued: they update nothing, request nothing, change no
    field, and after as many ticks as there were callbacks the queue is
    empty. *)
Theorem ticks_after_stop_drain (w : World) (ticks : list num) :
  isPlaying (this w) = false ->
  let w' := run w (map host_frame ticks) in
  log w' = log w /\
  this w' = this w /\
  mount w' = mount w /\
  loading w' = loading w /\
  joins w' = joins w /\
  frames w' = frames w - List.length ticks.
Proof.
  revert w. induction ticks as [|e ticks IH]; intros w P.
  - cbn [map run fold_left List.length]. repeat split. lia.
  - cbn [map]. cbv zeta. rewrite run_cons. cbn [step]. unfold frame.
    destruct (frames w) as [|n] eqn:F.
    + destruct (IH w P) as (A & B & C & D & E & G).
      repeat split; try assumption; try (rewrite G, F; reflexivity).
    + rewrite animate_stopped by exact P. cbn [world_of].
      destruct (IH (with_frames n w) P) as (A & B & C & D & E & G).
      repeat split; try assumption; try (rewrite G; reflexivity).
Qed.

Lemma count_tick (st : bool) (clk : Clock) (d : num) :
  count is_update
    ((if st then [stats_begin] else []) ++
     [clock_getDelta] ++
     map (fun c => c_update c clk d)
         [event; control; playerRenderer; animation; physics] ++
     (if st then [stats_end] else []) ++ [requestAnimationFrame]) = 5 /\
  count is_frame_request
    ((if st then [stats_begin] else []) ++
     [clock_getDelta] ++
     map (fun c => c_update c clk d)
         [event; control; playerRenderer; animation; physics] ++
     (if st then [stats_end] else []) ++ [requestAnimationFrame]) = 1.
Proof. destruct st; split; reflexivity. Qed.

(** X6.  While [isPlaying] is set and a frame callback is queued, every
    tick makes exactly five updates and requests exactly one frame: the
    queue neither grows nor runs dry.  With no callback queued, ticks do
    nothing. *)
Theorem ticks_while_playing (w : World) (ticks : list num) :
  isPlaying (this w) = true ->
  let w' := run w (map host_frame ticks) in
  (0 < frames w ->
   frames w' = frames w /\
   isPlaying (this w') = true /\
   count is_update (log w') =
     count is_update (log w) + 5 * List.length ticks /\
   count is_frame_request (log w') =
     count is_frame_request (log w) + List.length ticks) /\
  (frames w = 0 -> w' = w).
Proof.
  intros P w'. unfold w'. clear w'. split.
  - revert w P. induction ticks as [|e ticks IH]; intros w P F.
    + cbn [map run fold_left List.length]. repeat split; try assumption; lia.
    + cbn [map]. rewrite run_cons. cbn [step]. unfold frame.
      destruct (frames w) as [|n] eqn:Fn; [lia|].
      destruct (animate_playing e (with_frames n w) P)
        as (wa & clk & d & An & La & Fa & Pa & _).
      rewrite An. cbn [world_of].
      cbn [frames with_frames] in Fa. cbn [log this with_frames] in La.
      destruct (IH wa Pa) as (A & B & C & D); [lia|].
      rewrite C, D, La, !(count_app _ (log w)).
      destruct (count_tick (stats (this w)) clk d) as [U Q].
      rewrite U, Q. cbn [List.length].
      split; [lia|]. split; [exact B|]. split; lia.
  - intro F. revert w P F. induction ticks as [|e ticks IH]; intros w P F.
    + reflexivity.
    + cbn [map]. rewrite run_cons. cbn [step]. unfold frame. rewrite F.
      now apply IH.
Qed.

(** ** Listeners, notifications, creates and joins *)

Ltac ledger_leaf :=
  unfold ledger_step, count, broadcasts; cbn [log joins];
  rewrite <- ?app_assoc;
  first [ eexists; split; [reflexivity|]; simpl;
          rewrite ?List.length_app; simpl; repeat split; lia
        | exists []; split; [now rewrite app_nil_r|]; simpl;
          repeat split; lia ].

Lemma render_ledger (w : World) :
  ledger_step w (world_of (render w)) 2 0.
Proof. open_world w. unfold render. cases_m; ledger_leaf. Qed.

Lemma start_ledger (v : JSValue) (w : World) :
  ledger_step w (world_of (start v w)) 0 0.
Proof.
  open_world w. unfold start.
  destruct v; try (step_m; ledger_leaf).
  destruct (JSON_parse s); cases_m; ledger_leaf.
Qed.

Lemma stop_ledger (w : World) : ledger_step w (world_of (stop w)) 0 0.
Proof. open_world w. unfold stop. cases_m; ledger_leaf. Qed.

Lemma resize_ledger (w : World) : ledger_step w (world_of (resize w)) 0 0.
Proof. open_world w. unfold resize. cases_m; ledger_leaf. Qed.

Lemma animate_ledger (elapsed : num) (w : World) :
  ledger_step w (world_of (animate elapsed w)) 0 0.
Proof. open_world w. unfold animate. cases_m; ledger_leaf. Qed.

Lemma start_loaded_ledger (obj : Payload) (w : World) :
  exists d, ledger_step w (world_of (start_loaded obj w)) 0 d.
Proof.
  open_world w. destruct obj as [ocam orend olis oscene scr ani].
  unfold start_loaded, initPlayer.
  destruct ocam, orend, olis, oscene, mount0; step_m;
    first [ exists 1; solve [ledger_leaf] | exists 0; solve [ledger_leaf] ].
Qed.

Lemma ledger_same (w w' : World) :
  log w' = log w -> List.length (joins w') = List.length (joins w) ->
  ledger_step w w' 0 0.
Proof.
  intros L J. exists []. rewrite L, J, app_nil_r.
  repeat split; lia.
Qed.

Lemma length_set_nth {A} (l : list A) (j : nat) (y : A) :
  List.length (set_nth j y l) = List.length l.
Proof.
  revert j. induction l as [|a l IH]; intros [|j]; simpl; auto.
Qed.

Lemma step_ledger (w : World) (i : Input) :
  exists d,
    ledger_step w (step w i)
                (match i with call_render => 2 | _ => 0 end) d.
Proof.
  destruct i; cbn [step].
  - exists 0. apply render_ledger.
  - exists 0. apply start_ledger.
  - exists 0. apply stop_ledger.
  - exists 0. apply resize_ledger.
  - exists 0. apply ledger_same; unfold layout; now destruct (mount w).
  - exists 0. unfold resized, onResize.
    destruct (mount w); [apply resize_ledger | now apply ledger_same].
  - unfold loader_resolves.
    destruct (nth_error (loading w) i);
      [|exists 0; now apply ledger_same].
    apply (start_loaded_ledger obj (with_loading (drop_nth i (loading w)) w)).
  - exists 0. now apply ledger_same.
  - exists 0.
    destruct (create_resolves_cases j c w)
      as [[l [E [I [O ->]]]] | [[l [E [I [O ->]]]] | [F ->]]].
    + rewrite start_joined_run.
      exists [c_init event; clock_start; c_start event].
      simpl. rewrite length_set_nth. repeat split; lia.
    + apply ledger_same; simpl; [reflexivity | apply length_set_nth].
    + now apply ledger_same.
  - exists 0. unfold create_rejects.
    destruct (nth_error (joins w) j) as [[l| |]|];
      try now apply ledger_same.
    destruct (awaited c l); [|now apply ledger_same].
    apply ledger_same; simpl; [reflexivity | apply length_set_nth].
  - exists 0. unfold frame.
    destruct (frames w) as [|n]; [now apply ledger_same|].
    apply (animate_ledger elapsed (with_frames n w)).
Qed.

(** X9.  Event listeners are registered by [render] only, two per call (the
    window's resize event and the mutation observer): however often the
    player is started, stopped, resized or ticked, and whatever promises
    settle, the number of registrations is twice the number of [render]
    calls. *)
Theorem listeners_come_from_render_only (w : World) (inputs : list Input) :
  count is_listener (log (run w inputs)) =
  count is_listener (log w) + 2 * renders inputs.
Proof.
  revert w. induction inputs as [|i inputs IH]; intro w.
  - cbn [run fold_left renders filter List.length]. lia.
  - rewrite run_cons, IH.
    destruct (step_ledger w i) as (d & es & L & K & _).
    rewrite L, count_app, K. unfold renders. cbn [filter].
    destruct i; cbn [List.length]; lia.
Qed.

(** X10.  In every reachable state there are as many joins as "init"
    notifications have been dispatched, and six times as many [create]
    calls: a notification is always followed by the six [create]s and their
    join, and neither happens without it. *)
Theorem one_join_and_six_creates_per_init (w : World) :
  reachable w ->
  List.length (joins w) = broadcasts (log w) /\
  count is_create (log w) = 6 * broadcasts (log w).
Proof.
  intros [o [inputs ->]].
  assert (List.length (joins (new_Player o)) = broadcasts (log (new_Player o))
          /\ count is_create (log (new_Player o)) =
             6 * broadcasts (log (new_Player o))) as S0
      by (split; reflexivity).
  revert S0. generalize (new_Player o).
  induction inputs as [|i inputs IH]; intros w [A B]; [now split|].
  rewrite run_cons. apply IH.
  destruct (step_ledger w i) as (d & es & L & _ & D & C & J).
  rewrite L, J, broadcasts_app, count_app, A, B, D, C. split; lia.
Qed.

(** ** One session, from [start] to [stop] *)

Lemma nth_error_snoc {A} (l : list A) (x : A) :
  nth_error (l ++ [x]) (List.length l) = Some x.
Proof. rewrite nth_error_app2 by lia. now rewrite Nat.sub_diag. Qed.

Lemma drop_nth_snoc {A} (l : list A) (x : A) :
  drop_nth (List.length l) (l ++ [x]) = l.
Proof. induction l as [|a l IH]; simpl; [reflexivity | now rewrite IH]. Qed.

Lemma without_absent (n : Ref) (l : list Ref) :
  existsb (Ref_eqb n) l = false -> without n l = l.
Proof.
  unfold without. induction l as [|m l IH]; simpl; [reflexivity|].
  intro E. apply orb_false_iff in E. destruct E as [Em El].
  rewrite Em. simpl. now rewrite IH.
Qed.

Lemma without_appended (n : Ref) (l : list Ref) :
  existsb (Ref_eqb n) l = false ->
  without n (without n l ++ [n]) = l.
Proof.
  intro E. rewrite (without_absent n l E).
  unfold without at 1. rewrite filter_app. simpl.
  rewrite Ref_eqb_refl. simpl. rewrite app_nil_r.
  now apply without_absent.
Qed.

(** X8.  A whole session leaves the player as it found it.  Take a stopped
    player with no context, a stopped clock and a hidden, mounted container
    that does not yet hold the canvas.  After [start] on parseable text, the
    resolution of the loader's promise and [stop], which then returns
    normally, all the player's fields and the container are what they were
    before; what remains is one join that still waits for the six [create]s
    and one queued frame callback. *)
Theorem start_load_stop_round_trip
        (w : World) (c : Container) (text : string) (jsons : json)
        (obj : Payload) :
  mount w = Some c ->
  display c = "none" ->
  isPlaying (this w) = false ->
  scene (this w) = None ->
  camera (this w) = None ->
  renderer (this w) = None ->
  clock (this w) = {| autoStart := false; running := false |} ->
  JSON_parse text = Some jsons ->
  is_child (canvas_for obj w) c = false ->
  let session :=
    run w [call_start (JSString text);
           host_loader_resolves (List.length (loading w)) obj] in
  let w' := step session call_stop in
  isPlaying (this session) = true /\
  returns (stop session) = true /\
  this w' = this w /\
  mount w' = mount w /\
  loading w' = loading w /\
  joins w' = joins w ++ [Waiting six] /\
  frames w' = S (frames w).
Proof.
  intros Mo D P S C R K J Ch. open_world w.
  destruct c as [disp cw ch nodes]. simpl in D. subst disp.
  destruct obj as [ocam orend olis oscene scr ani].
  unfold canvas_for, is_child in Ch.
  cbn [obj_renderer made childNodes] in Ch.
  unfold run. cbn [fold_left step].
  unfold start. rewrite J. step_m.
  unfold loader_resolves. cbn [loading].
  rewrite nth_error_snoc, drop_nth_snoc.
  unfold start_loaded, initPlayer.
  destruct ocam, orend, olis, oscene; step_m;
    unfold stop; step_m; rewrite is_child_appendChild; step_m;
    unfold set_display, appendChild, detach, setSize;
    cbn [display clientWidth clientHeight childNodes domElement];
    rewrite (without_appended _ nodes Ch);
    repeat split.
Qed.

(** ** The constructed player, the overlay, and a late loader *)

(** X12.  A player that has only been constructed is inert: [stop],
    [resize], the resize listener, layout changes, frame ticks and the
    settling of promises leave it exactly as the constructor made it.  Only
    [render] and [start] act on it. *)
Theorem constructed_player_is_inert (o : OptionsArg) (i : Input) :
  match i with
  | call_render | call_start _ => False
  | _ => True
  end ->
  step (new_Player o) i = new_Player o.
Proof.
  destruct i; intro N; try elim N; try reflexivity.
  - cbn [step]. unfold loader_resolves. now destruct i.
  - cbn [step]. unfold loader_rejects. now destruct i.
  - cbn [step]. unfold create_resolves. now destruct j.
  - cbn [step]. unfold create_rejects. now destruct j.
Qed.

Lemma render_overlay (w : World) :
  mount (world_of (render w)) <> None /\
  stats (this (world_of (render w))) =
    (showStats (options (this w)) || stats (this w))%bool.
Proof.
  open_world w. unfold render. step_m.
  destruct (showStats options0); step_m; split; try discriminate;
    reflexivity.
Qed.

Ltac overlay_leaf := cases_m; repeat split; reflexivity.

Lemma start_overlay (v : JSValue) (w : World) :
  stats (this (world_of (start v w))) = stats (this w) /\
  present (mount (world_of (start v w))) = present (mount w).
Proof.
  open_world w. unfold start.
  destruct v; try (step_m; split; reflexivity).
  destruct (JSON_parse s); overlay_leaf.
Qed.

Lemma stop_overlay (w : World) :
  stats (this (world_of (stop w))) = stats (this w) /\
  present (mount (world_of (stop w))) = present (mount w).
Proof. open_world w. unfold stop. overlay_leaf. Qed.

Lemma resize_overlay (w : World) :
  stats (this (world_of (resize w))) = stats (this w) /\
  present (mount (world_of (resize w))) = present (mount w).
Proof. open_world w. unfold resize. overlay_leaf. Qed.

Lemma animate_overlay (elapsed : num) (w : World) :
  stats (this (world_of (animate elapsed w))) = stats (this w) /\
  present (mount (world_of (animate elapsed w))) = present (mount w).
Proof. open_world w. unfold animate. overlay_leaf. Qed.

Lemma start_loaded_overlay (obj : Payload) (w : World) :
  stats (this (world_of (start_loaded obj w))) = stats (this w) /\
  present (mount (world_of (start_loaded obj w))) = present (mount w).
Proof.
  open_world w. destruct obj as [ocam orend olis oscene scr ani].
  unfold start_loaded, initPlayer.
  destruct ocam, orend, olis, oscene, mount0; step_m; split; reflexivity.
Qed.

Lemma step_overlay (w : World) (i : Input) :
  (present (mount w) = true ->
   showStats (options (this w)) = true -> stats (this w) = true) ->
  present (mount (step w i)) = true ->
  showStats (options (this w)) = true ->
  stats (this (step w i)) = true.
Proof.
  intros H.
  assert (forall w', stats (this w') = stats (this w) ->
                     present (mount w') = present (mount w) ->
                     present (mount w') = true ->
                     showStats (options (this w)) = true ->
                     stats (this w') = true) as K.
  { intros w' S M Mo Sh. rewrite S. apply H; [now rewrite <- M | exact Sh]. }
  destruct i; cbn [step].
  - intros _ Sh. rewrite (proj2 (render_overlay w)), Sh. reflexivity.
  - apply K; apply start_overlay.
  - apply K; apply stop_overlay.
  - apply K; apply resize_overlay.
  - apply K; unfold layout; destruct (mount w) eqn:E; cbn; rewrite ?E;
      reflexivity.
  - unfold resized, onResize. destruct (mount w) eqn:Mo.
    + apply K; [apply resize_overlay|]. rewrite <- Mo. apply resize_overlay.
    + apply K; [reflexivity | now rewrite Mo].
  - unfold loader_resolves. destruct (nth_error (loading w) i).
    + apply K.
      * exact (proj1 (start_loaded_overlay
                        obj (with_loading (drop_nth i (loading w)) w))).
      * exact (proj2 (start_loaded_overlay
                        obj (with_loading (drop_nth i (loading w)) w))).
    + now apply K.
  - now apply K.
  - destruct (create_resolves_cases j c w)
      as [[l [E [I [O ->]]]] | [[l [E [I [O ->]]]] | [F ->]]];
      try rewrite start_joined_run; now apply K.
  - unfold create_rejects.
    destruct (nth_error (joins w) j) as [[l| |]|]; try now apply K.
    destruct (awaited c l); now apply K.
  - unfold frame. destruct (frames w) as [|n]; [now apply K|].
    apply K.
    + exact (proj1 (animate_overlay elapsed (with_frames n w))).
    + exact (proj2 (animate_overlay elapsed (with_frames n w))).
Qed.

Lemma run_overlay (inputs : list Input) :
  forall w,
    (present (mount w) = true ->
     showStats (options (this w)) = true -> stats (this w) = true) ->
    present (mount (run w inputs)) = true ->
    showStats (options (this w)) = true ->
    stats (this (run w inputs)) = true.
Proof.
  induction inputs as [|i inputs IH]; intros w H Mo Sh; [now apply H|].
  rewrite run_cons in *. apply IH; [|exact Mo|].
  - intros Mi Si. rewrite step_keeps_options in Si.
    now apply step_overlay.
  - now rewrite step_keeps_options.
Qed.

(** X13.  Once a player constructed with [showStats: true] has been
    rendered it has its stats overlay for good, and a player constructed
    without never has one: in every reachable state whose container is
    mounted, [this.stats] is set exactly if [showStats] was asked for (so
    the ticks of such a player are bracketed by [stats.begin] and
    [stats.end] exactly then). *)
Theorem overlay_exactly_when_asked (o : OptionsArg) (inputs : list Input) :
  let w := run (new_Player o) inputs in
  mount w <> None ->
  stats (this w) = showStats (options (this (new_Player o))).
Proof.
  intros w Mo.
  assert (reachable w) as R by (exists o, inputs; reflexivity).
  destruct (reachable_sound w R) as (_ & _ & _ & _ & G).
  unfold w in G. rewrite run_keeps_options in G. fold w in G.
  destruct (showStats (options (this (new_Player o)))) eqn:Sh.
  - apply run_overlay; [discriminate | | exact Sh].
    fold w. now destruct (mount w).
  - destruct (stats (this w)); [|reflexivity].
    symmetry. now apply G.
Qed.

(** X14.  The continuation of the loader does not look at [isPlaying].  If
    the promise resolves after the player has been stopped, the context is
    built and its canvas attached all the same; a [stop] then returns at
    once and removes nothing, and the frame callback the continuation
    queued is used up by the next tick without any update. *)
Theorem late_load_is_not_torn_down
        (w : World) (c : Container) (obj : Payload) :
  mount w = Some c ->
  isPlaying (this w) = false ->
  exists w' r c',
    start_loaded obj w = Done tt w' /\
    renderer (this w') = Some r /\
    present (scene (this w')) = true /\
    present (camera (this w')) = true /\
    mount w' = Some c' /\
    is_child (domElement r) c' = true /\
    frames w' = S (frames w) /\
    stop w' = Done tt w' /\
    (forall elapsed, frame elapsed w' = with_frames (frames w) w').
Proof.
  intros Mo P. open_world w.
  destruct obj as [ocam orend olis oscene scr ani].
  unfold start_loaded, initPlayer.
  destruct ocam, orend, olis, oscene; step_m;
    do 3 eexists; (split; [reflexivity|]); step_m;
    (split; [reflexivity|]); (split; [reflexivity|]);
    (split; [reflexivity|]); (split; [reflexivity|]);
    (split; [apply is_child_appendChild|]);
    (split; [reflexivity|]); split; reflexivity.
Qed.

(** ** Who dispatches "init" *)





End Further.

(** * The further properties on the sample runs *)

Lemma reachable_started : reachable started.
Proof.
  exists no_options,
    [call_render; host_layout 800 600; call_start (JSString "{}")].
  vm_compute. reflexivity.
Qed.

Lemma reachable_loaded : reachable loaded.
Proof.
  exists no_options,
    [call_render; host_layout 800 600; call_start (JSString "{}");
     host_loader_resolves 0 bare_payload].
  vm_compute. reflexivity.
Qed.

Lemma isPlaying_follows_start_and_stop_witness :
  isPlaying (this (run loaded [@host_frame sample_host (Int 16); call_resize;
                               host_create_rejects 0 audio])) = true.
Proof.
  destruct (@isPlaying_follows_start_and_stop sample_host loaded
              [@host_frame sample_host (Int 16); call_resize; host_create_rejects 0 audio]
              eq_refl) as [A _].
  rewrite A. reflexivity.
Defined.

Lemma context_is_all_or_nothing_witness :
  (mount loaded = None -> loading loaded = []) /\
  exists s c r,
    scene (this loaded) = Some s /\ camera (this loaded) = Some c /\
    renderer (this loaded) = Some r.
Proof.
  destruct (@context_is_all_or_nothing sample_host loaded reachable_loaded)
    as [[[S _] | (s & c & r & S & C & R & _)] L].
  - discriminate S.
  - split; [exact L|]. exists s, c, r. now repeat split.
Defined.

Lemma resize_never_throws_witness :
  exists w', resize loaded = Done tt w' /\ frames w' = 1.
Proof.
  destruct (@resize_never_throws sample_host loaded reachable_loaded)
    as (w' & R & _ & _ & _ & _ & _ & F).
  exists w'. split; [exact R | exact F].
Defined.

Lemma loader_resolution_completes_bootstrap_witness :
  broadcasts (log (loader_resolves 0 bare_payload started)) = 1 /\
  frames (loader_resolves 0 bare_payload started) = 1.
Proof.
  destruct (@loader_resolution_completes_bootstrap sample_host started 0
              EmptyObject bare_payload reachable_started eq_refl)
    as (_ & _ & _ & B & _ & F & _).
  split; [exact B | exact F].
Defined.

Lemma ticks_before_join_pass_zero_witness :
  running (clock (this loaded)) = false /\
  exists w', animate (Int 16) loaded = Done tt w'.
Proof.
  destruct (@ticks_before_join_pass_zero sample_host (Int 16) loaded
              reachable_loaded eq_refl eq_refl) as (R & w' & A & _).
  split; [exact R|]. exists w'. exact A.
Defined.

Lemma ticks_after_stop_drain_witness :
  let w := step loaded call_stop in
  log (run w [@host_frame sample_host (Int 16); @host_frame sample_host (Int 16)]) = log w /\
  frames (run w [@host_frame sample_host (Int 16); @host_frame sample_host (Int 16)]) = 0.
Proof.
  intro w.
  assert (isPlaying (this w) = false) as P by (vm_compute; reflexivity).
  destruct (@ticks_after_stop_drain sample_host w [Int 16; Int 16] P)
    as (L & _ & _ & _ & _ & F).
  split; [exact L | exact F].
Defined.

Lemma ticks_while_playing_witness :
  frames (run loaded [@host_frame sample_host (Int 16); @host_frame sample_host (Int 17)]) = 1.
Proof.
  destruct (@ticks_while_playing sample_host loaded [Int 16; Int 17] eq_refl)
    as [A _].
  assert (0 < frames loaded) as F by (vm_compute; lia).
  destruct (A F) as (E & _). exact E.
Defined.

Lemma start_load_stop_round_trip_witness :
  let session := run rendered [call_start (JSString "{}");
                               host_loader_resolves 0 bare_payload] in
  this (step session call_stop) = this rendered /\
  mount (step session call_stop) = mount rendered.
Proof.
  destruct (@start_load_stop_round_trip sample_host rendered
              {| display := "none"; clientWidth := 800;
                 clientHeight := 600; childNodes := [] |}
              "{}" EmptyObject bare_payload
              eq_refl eq_refl eq_refl eq_refl eq_refl eq_refl eq_refl
              eq_refl eq_refl)
    as (_ & _ & T & M & _).
  split; [exact T | exact M].
Defined.

Lemma one_join_and_six_creates_per_init_witness :
  List.length (joins loaded) = broadcasts (log loaded) /\
  count is_create (log loaded) = 6 * broadcasts (log loaded).
Proof.
  exact (@one_join_and_six_creates_per_init sample_host loaded
           reachable_loaded).
Defined.

Lemma options_are_fixed_witness :
  let o := {| arg_server := None; arg_enableThrowBall := None;
              arg_showStats := Some true |} in
  stats (this (run (@new_Player sample_host o) [call_render])) = true /\
  arg_showStats o = Some true.
Proof.
  intro o.
  destruct (@options_are_fixed sample_host o [call_render]) as [_ G].
  split; [reflexivity|]. apply G. reflexivity.
Defined.

Lemma constructed_player_is_inert_witness :
  step (@new_Player sample_host no_options) call_stop = new_Player no_options.
Proof.
  exact (@constructed_player_is_inert sample_host no_options call_stop I).
Defined.

Lemma overlay_exactly_when_asked_witness :
  stats (this rendered) = false.
Proof.
  assert (rendered =
          run (@new_Player sample_host no_options)
              [call_render; host_layout 800 600]) as E
      by (vm_compute; reflexivity).
  rewrite E.
  rewrite (@overlay_exactly_when_asked sample_host no_options
             [call_render; host_layout 800 600]).
  - reflexivity.
  - vm_compute. discriminate.
Defined.

Lemma late_load_is_not_torn_down_witness :
  let w := step started call_stop in
  exists w',
    start_loaded bare_payload w = Done tt w' /\
    stop w' = Done tt w' /\
    present (camera (this w')) = true.
Proof.
  intro w.
  destruct (@late_load_is_not_torn_down sample_host w
              {| display := EmptyString; clientWidth := 800;
                 clientHeight := 600; childNodes := [] |}
              bare_payload)
    as (w' & r & c' & R & _ & _ & C & _ & _ & _ & S & _).
  - vm_compute. reflexivity.
  - vm_compute. reflexivity.
  - exists w'. split; [exact R|]. split; [exact S | exact C].
Defined.

Lemma stop_in_unloaded_session_throws_witness :
  exists w1 w2,
    start (JSString "{}") rendered = Done tt w1 /\
    isPlaying (this w1) = true /\
    stop w1 = Thrown TypeError w2 /\
    clock (this w2) = clock (this rendered).
Proof.
  destruct (@stop_in_unloaded_session_throws sample_host rendered
              {| display := "none"; clientWidth := 800;
                 clientHeight := 600; childNodes := [] |}
              "{}" EmptyObject eq_refl eq_refl eq_refl eq_refl)
    as (w1 & w2 & St & P & _ & Sp & _ & _ & _ & _ & _ & C).
  exists w1, w2.
  split; [exact St|]. split; [exact P|]. split; [exact Sp | exact C].
Defined.


